(** * time_series_visualizer.py: a shallow embedding

    The script loads a table of daily page views, drops the rows outside the
    2.5%-97.5% quantile band of the [value] column and offers three renderers
    ([draw_line_plot], [draw_bar_plot], [draw_box_plot]) that read the shared
    module-level frame [df], build a figure and save it under a fixed name.

    Modelling conventions.
    - A pandas [DataFrame] is an index plus an ordered list of named columns.
      Frames and figures are objects of a store ([heap]); Python variables hold
      locations, so that [df.copy()] and the in-place updates of the copies are
      visible as such.
    - Floating-point results (quantiles, means) are modelled by the exact
      rationals they approximate.
    - Timestamps carry their calendar month as one of twelve constructors;
      [.month] reads it as a number 1..12 and [strftime('%b')] as its English
      abbreviation (C locale).
    - Of pandas, matplotlib and seaborn only what the script relies on is
      modelled: linear-interpolation quantiles, boolean-mask selection,
      [groupby(...).mean().unstack()], bar plotting of a frame (one bar
      container per column, an error on a frame without columns), legends
      (handles paired with labels one to one) and categorical box plots
      (one group per level, nothing drawn for a frame without rows).
    - The quantile is computed exactly where pandas interpolates in float64.
      Statements that rest on a strict comparison of a value with a threshold
      are stated for values of at most 31 bits, far from the magnitudes at
      which rounding can move a threshold onto a value.
    - A file without data rows is read as an empty frame with a datetime
      index. *)

From Stdlib Require Import ZArith QArith Qround List Permutation Sorted Lia Lqa.
From stdpp Require Import base option list strings gmap sorting pretty.

Open Scope Z_scope.

(** ** Calendar dates *)

Inductive Month :=
  | Jan | Feb | Mar | Apr | May | Jun | Jul | Aug | Sep | Oct | Nov | Dec.

Definition month_number (m : Month) : Z :=
  match m with
  | Jan => 1 | Feb => 2 | Mar => 3 | Apr => 4 | May => 5 | Jun => 6
  | Jul => 7 | Aug => 8 | Sep => 9 | Oct => 10 | Nov => 11 | Dec => 12
  end.

Definition month_abbr (m : Month) : string :=
  match m with
  | Jan => "Jan" | Feb => "Feb" | Mar => "Mar" | Apr => "Apr"
  | May => "May" | Jun => "Jun" | Jul => "Jul" | Aug => "Aug"
  | Sep => "Sep" | Oct => "Oct" | Nov => "Nov" | Dec => "Dec"
  end.

Record Timestamp := { year : Z; calendar_month : Month; day : Z }.

(** [d.month] *)
Definition month (d : Timestamp) : Z := month_number (calendar_month d).

(** [d.strftime('%b')] *)
Definition strftime_b (d : Timestamp) : string := month_abbr (calendar_month d).

(** One parsed line of [fcc-forum-pageviews.csv]. *)
Record Row := { date : Timestamp; value : Z }.

(** ** Data frames *)

Inductive Label := LInt (z : Z) | LStr (s : string) | LDate (d : Timestamp).

Inductive Column :=
  | IntCol (xs : list Z)
  | DateCol (ds : list Timestamp)
  | StrCol (ss : list string).

Inductive Index :=
  | DatetimeIndex (name : string) (ds : list Timestamp)
  | RangeIndex (n : nat)
  | Int64Index (ks : list Z).

Record DataFrame := { index : Index; columns : list (string * Column) }.

Definition cells (c : Column) : list Label :=
  match c with
  | IntCol xs => map LInt xs
  | DateCol ds => map LDate ds
  | StrCol ss => map LStr ss
  end.

Fixpoint assoc_get {A : Type} (k : string) (l : list (string * A)) : option A :=
  match l with
  | [] => None
  | (k', v) :: rest => if String.eqb k k' then Some v else assoc_get k rest
  end.

(** [d[k] = v]: an existing column is replaced in place, a new one goes last. *)
Fixpoint assoc_set {A : Type} (k : string) (v : A) (l : list (string * A))
  : list (string * A) :=
  match l with
  | [] => [(k, v)]
  | (k', v') :: rest =>
      if String.eqb k k' then (k', v) :: rest else (k', v') :: assoc_set k v rest
  end.

(** Rows kept by a boolean mask, position by position. *)
Fixpoint mask_filter {A : Type} (mask : list bool) (xs : list A) : list A :=
  match mask, xs with
  | b :: mask', x :: xs' =>
      if b then x :: mask_filter mask' xs' else mask_filter mask' xs'
  | _, _ => []
  end.

Definition select_column (mask : list bool) (c : Column) : Column :=
  match c with
  | IntCol xs => IntCol (mask_filter mask xs)
  | DateCol ds => DateCol (mask_filter mask ds)
  | StrCol ss => StrCol (mask_filter mask ss)
  end.

Definition select_index (mask : list bool) (i : Index) : Index :=
  match i with
  | DatetimeIndex name ds => DatetimeIndex name (mask_filter mask ds)
  | RangeIndex n => Int64Index (mask_filter mask (map Z.of_nat (seq 0 n)))
  | Int64Index ks => Int64Index (mask_filter mask ks)
  end.

(** [d[mask]] *)
Definition select (mask : list bool) (d : DataFrame) : DataFrame :=
  {| index := select_index mask (index d);
     columns := map (fun kc => (fst kc, select_column mask (snd kc))) (columns d) |}.

(** ** Quantiles and comparisons of a numeric series *)

(** [s.quantile(q)] with the default linear interpolation: the sorted values
    are read at the fractional position [q * (n - 1)].  An empty series
    gives NaN, here [None]. *)
Definition quantile (q : Q) (xs : list Z) : option Q :=
  match xs with
  | [] => None
  | _ :: _ =>
      let sorted := merge_sort Z.le xs in
      let pos := (q * inject_Z (Z.of_nat (length xs) - 1))%Q in
      let lo := Qfloor pos in
      let frac := (pos - inject_Z lo)%Q in
      let a := nth (Z.to_nat lo) sorted 0 in
      let b := nth (S (Z.to_nat lo)) sorted a in
      Some (inject_Z a + (inject_Z b - inject_Z a) * frac)%Q
  end.

(** [s >= t] and [s <= t] against a scalar; every comparison with NaN is false. *)
Definition series_ge (xs : list Z) (t : option Q) : list bool :=
  map (fun x => match t with Some q => Qle_bool q (inject_Z x) | None => false end) xs.

Definition series_le (xs : list Z) (t : option Q) : list bool :=
  map (fun x => match t with Some q => Qle_bool (inject_Z x) q | None => false end) xs.

(** [m1 & m2] *)
Fixpoint mask_and (m1 m2 : list bool) : list bool :=
  match m1, m2 with
  | b1 :: m1', b2 :: m2' => (b1 && b2) :: mask_and m1' m2'
  | _, _ => []
  end.

(** ** Grouped means and the pivoted grid *)

(** The result of [groupby(['year', 'month'])['value'].mean()]: one entry per
    distinct key, keys in increasing (lexicographic) order. *)
Abbreviation Key := (Z * Z)%type (only parsing).

Definition key_eqb (a b : Key) : bool := (a.1 =? b.1) && (a.2 =? b.2).

Definition key_ltb (a b : Key) : bool :=
  (a.1 <? b.1) || ((a.1 =? b.1) && (a.2 <? b.2)).

(** One row enters its group: the group's running sum and count are updated,
    a new group is put at its place in key order. *)
Fixpoint accumulate (k : Key) (v : Z) (acc : list (Key * (Z * Z)))
  : list (Key * (Z * Z)) :=
  match acc with
  | [] => [(k, (v, 1))]
  | (k', (s, n)) :: rest =>
      if key_eqb k k' then (k', (s + v, n + 1)) :: rest
      else if key_ltb k k' then (k, (v, 1)) :: acc
      else (k', (s, n)) :: accumulate k v rest
  end.

Definition group_sums (keys : list Key) (vals : list Z) : list (Key * (Z * Z)) :=
  fold_left (fun acc kv => accumulate kv.1 kv.2 acc) (zip keys vals) [].

Definition groupby_mean (keys : list Key) (vals : list Z) : list (Key * Q) :=
  map (fun g => (g.1, (inject_Z g.2.1 / inject_Z g.2.2)%Q)) (group_sums keys vals).

Fixpoint series_get (k : Key) (s : list (Key * Q)) : option Q :=
  match s with
  | [] => None
  | (k', x) :: rest => if key_eqb k k' then Some x else series_get k rest
  end.

Fixpoint insert_unique (z : Z) (l : list Z) : list Z :=
  match l with
  | [] => [z]
  | x :: rest =>
      if z =? x then l
      else if z <? x then z :: l
      else x :: insert_unique z rest
  end.

(** The distinct values of a level, in increasing order. *)
Definition sorted_unique (l : list Z) : list Z := foldr insert_unique [] l.

(** A frame whose rows and columns are labelled by integers; a cell without
    data holds NaN, here [None]. *)
Record Grid := {
  grid_index_name : string;
  grid_index : list Z;
  grid_columns_name : string;
  grid_columns : list Z;
  grid_data : list (list (option Q))
}.

(** [s.unstack()]: the last key level becomes the columns. *)
Definition unstack (names : string * string) (s : list (Key * Q)) : Grid :=
  let rows := sorted_unique (map (fun e => e.1.1) s) in
  let cols := sorted_unique (map (fun e => e.1.2) s) in
  {| grid_index_name := names.1;
     grid_index := rows;
     grid_columns_name := names.2;
     grid_columns := cols;
     grid_data := map (fun y => map (fun m => series_get (y, m) s) cols) rows |}.

Fixpoint position (z : Z) (l : list Z) : option nat :=
  match l with
  | [] => None
  | x :: rest => if z =? x then Some O else S <$> position z rest
  end.

(** [g.loc[y, m]]: [None] when the grid has no such row or column,
    [Some None] for a NaN cell. *)
Definition grid_cell (g : Grid) (y m : Z) : option (option Q) :=
  i ← position y (grid_index g);
  j ← position m (grid_columns g);
  row ← grid_data g !! i;
  row !! j.

(** Column [j] of the grid, top to bottom. *)
Definition grid_column (g : Grid) (j : nat) : list (option Q) :=
  map (fun row => default None (row !! j)) (grid_data g).

(** ** Figures *)

Inductive Artist :=
  | Line2D (xdata : Index) (ydata : Column) (color : string) (linewidth : Z)
  | BarContainer (label : string) (heights : list Q)
  | BoxPlot (groups : list (Label * list Z)).

Record Legend := {
  legend_title : string;
  legend_entries : list (Artist * string)
}.

Record Axes := {
  title : string;
  xlabel : string;
  ylabel : string;
  artists : list Artist;
  xticklabels : list Label;
  legend : option Legend
}.

Record Figure := { figsize : Z * Z; axes : list Axes }.

Definition empty_axes : Axes :=
  {| title := ""; xlabel := ""; ylabel := ""; artists := [];
     xticklabels := []; legend := None |}.

Definition with_title (s : string) (a : Axes) : Axes :=
  {| title := s; xlabel := xlabel a; ylabel := ylabel a; artists := artists a;
     xticklabels := xticklabels a; legend := legend a |}.

Definition with_xlabel (s : string) (a : Axes) : Axes :=
  {| title := title a; xlabel := s; ylabel := ylabel a; artists := artists a;
     xticklabels := xticklabels a; legend := legend a |}.

Definition with_ylabel (s : string) (a : Axes) : Axes :=
  {| title := title a; xlabel := xlabel a; ylabel := s; artists := artists a;
     xticklabels := xticklabels a; legend := legend a |}.

Definition with_artists (l : list Artist) (a : Axes) : Axes :=
  {| title := title a; xlabel := xlabel a; ylabel := ylabel a;
     artists := artists a ++ l; xticklabels := xticklabels a; legend := legend a |}.

Definition with_xticklabels (l : list Label) (a : Axes) : Axes :=
  {| title := title a; xlabel := xlabel a; ylabel := ylabel a; artists := artists a;
     xticklabels := l; legend := legend a |}.

Definition with_legend (l : Legend) (a : Axes) : Axes :=
  {| title := title a; xlabel := xlabel a; ylabel := ylabel a; artists := artists a;
     xticklabels := xticklabels a; legend := Some l |}.

(** The artists a legend can show: lines and bar containers. *)
Definition legend_handles (a : Axes) : list Artist :=
  List.filter (fun x => match x with BoxPlot _ => false | _ => true end) (artists a).

(** [ax.legend(title=t, labels=ls)]: without explicit handles the labels are
    paired with the handles of the axes, as many as both lists have. *)
Definition ax_legend (t : string) (ls : list string) (a : Axes) : Axes :=
  with_legend {| legend_title := t; legend_entries := zip (legend_handles a) ls |} a.

(** [ax.legend(handles, labels, title=t)] *)
Definition ax_legend_handles (hs : list Artist) (ls : list string) (t : string)
    (a : Axes) : Axes :=
  with_legend {| legend_title := t; legend_entries := zip hs ls |} a.

(** ** The store, exceptions and the monad of the script *)

Abbreviation loc := nat (only parsing).

Inductive Obj := ODataFrame (d : DataFrame) | OFigure (f : Figure).

(** Python values the renderers can return. *)
Inductive pyval := PyNone | PyRef (l : loc).

(** [heap]: the objects; [files]: the images written so far; [df]: the
    module-level name [df], unbound until the module body has run. *)
Record World := {
  heap : list Obj;
  files : gmap string Figure;
  df : option loc
}.

Definition empty_world : World := {| heap := []; files := ∅; df := None |}.

Inductive exn :=
  | KeyError (k : string)
  | TypeError (msg : string)
  | NameError (name : string)
  | AttributeError (attr : string)
  | ValueError (msg : string)
  | IndexError (i : nat).

Inductive outcome (A : Type) := Ret (a : A) | Raise (e : exn).
Arguments Ret {A} a.
Arguments Raise {A} e.

#[global] Instance outcome_ret : MRet outcome := fun A a => Ret a.
#[global] Instance outcome_bind : MBind outcome := fun A B f m =>
  match m with Ret a => f a | Raise e => Raise e end.

(** A computation runs on a world and leaves a world, also when it raises. *)
Definition M (A : Type) : Type := World -> World * outcome A.

#[global] Instance M_ret : MRet M := fun A a w => (w, Ret a).
#[global] Instance M_bind : MBind M := fun A B f m w =>
  match m w with
  | (w', Ret a) => f a w'
  | (w', Raise e) => (w', Raise e)
  end.

Definition lift {A : Type} (o : outcome A) : M A := fun w => (w, o).

Definition set_heap (h : list Obj) (w : World) : World :=
  {| heap := h; files := files w; df := df w |}.

Definition alloc (o : Obj) : M loc :=
  fun w => (set_heap (heap w ++ [o]) w, Ret (length (heap w))).

Definition load_frame (l : loc) : M DataFrame := fun w =>
  match heap w !! l with
  | Some (ODataFrame d) => (w, Ret d)
  | _ => (w, Raise (TypeError "not a DataFrame"))
  end.

Definition store_frame (l : loc) (d : DataFrame) : M unit :=
  fun w => (set_heap (<[l := ODataFrame d]> (heap w)) w, Ret tt).

Definition load_figure (l : loc) : M Figure := fun w =>
  match heap w !! l with
  | Some (OFigure f) => (w, Ret f)
  | _ => (w, Raise (TypeError "not a Figure"))
  end.

Definition store_figure (l : loc) (f : Figure) : M unit :=
  fun w => (set_heap (<[l := OFigure f]> (heap w)) w, Ret tt).

(** Reading and binding the global name [df]. *)
Definition global_df : M loc := fun w =>
  match df w with
  | Some l => (w, Ret l)
  | None => (w, Raise (NameError "df"))
  end.

Definition bind_df (l : loc) : M unit :=
  fun w => ({| heap := heap w; files := files w; df := Some l |}, Ret tt).

(** ** pandas *)

(** [d[k]] *)
Definition getcol (d : DataFrame) (k : string) : outcome Column :=
  match assoc_get k (columns d) with
  | Some c => Ret c
  | None => Raise (KeyError k)
  end.

Definition numeric (c : Column) : outcome (list Z) :=
  match c with
  | IntCol xs => Ret xs
  | _ => Raise (TypeError "not numeric")
  end.

Definition datetimes (c : Column) : outcome (list Timestamp) :=
  match c with
  | DateCol ds => Ret ds
  | _ => Raise (AttributeError "not datetime-like")
  end.

(** [pd.read_csv(path, parse_dates=['date'], index_col='date')] on a file
    whose lines parse to [csv]. *)
Definition read_csv (csv : list Row) : DataFrame :=
  {| index := DatetimeIndex "date" (map date csv);
     columns := [("value", IntCol (map value csv))] |}.

(** [d.copy()] *)
Definition copy (l : loc) : M loc :=
  d ← load_frame l; alloc (ODataFrame d).

(** [d[k] = c] on the object at [l] *)
Definition setcol (l : loc) (k : string) (c : Column) : M unit :=
  d ← load_frame l;
  store_frame l {| index := index d; columns := assoc_set k c (columns d) |}.

(** [d.index.year] and [d.index.month] *)
Definition index_year (i : Index) : outcome (list Z) :=
  match i with
  | DatetimeIndex _ ds => Ret (map year ds)
  | _ => Raise (AttributeError "year")
  end.

Definition index_month (i : Index) : outcome (list Z) :=
  match i with
  | DatetimeIndex _ ds => Ret (map month ds)
  | _ => Raise (AttributeError "month")
  end.

(** [d.reset_index(inplace=True)]: the index becomes the first column, under
    its name, and the rows are renumbered. *)
Definition reset_index_inplace (l : loc) : M unit :=
  d ← load_frame l;
  match index d with
  | DatetimeIndex name ds =>
      match assoc_get name (columns d) with
      | Some _ => lift (Raise (ValueError "cannot insert, already exists"))
      | None =>
          store_frame l {| index := RangeIndex (length ds);
                           columns := (name, DateCol ds) :: columns d |}
      end
  | RangeIndex n =>
      store_frame l {| index := RangeIndex n;
                       columns := ("index", IntCol (map Z.of_nat (seq 0 n))) :: columns d |}
  | Int64Index ks =>
      store_frame l {| index := RangeIndex (length ks);
                       columns := ("index", IntCol ks) :: columns d |}
  end.

(** [d.groupby([k1, k2])[v].mean().unstack()] *)
Definition groupby_mean_unstack (d : DataFrame) (k1 k2 v : string) : outcome Grid :=
  c1 ← getcol d k1 ≫= numeric;
  c2 ← getcol d k2 ≫= numeric;
  vs ← getcol d v ≫= numeric;
  mret (unstack (k1, k2) (groupby_mean (zip c1 c2) vs)).

(** The bars of a grid: one container per column, labelled by the column's
    name, one bar per row, NaN drawn as height 0. *)
Definition bar_containers (g : Grid) : list Artist :=
  imap (fun j m => BarContainer (pretty m) (map (default 0%Q) (grid_column g j)))
       (grid_columns g).

(** ** matplotlib *)

(** [plt.subplots(1, n, figsize=size)]: a new figure with [n] empty axes. *)
Definition subplots (n : nat) (size : Z * Z) : M loc :=
  alloc (OFigure {| figsize := size; axes := replicate n empty_axes |}).

(** A method call on axes [i] of the figure at [fig]. *)
Definition on_axes (fig : loc) (i : nat) (f : Axes -> Axes) : M unit :=
  g ← load_figure fig;
  match axes g !! i with
  | Some a => store_figure fig {| figsize := figsize g; axes := <[i := f a]> (axes g) |}
  | None => lift (Raise (IndexError i))
  end.

Definition write_file (fname : string) (g : Figure) : M unit :=
  fun w => ({| heap := heap w; files := <[fname := g]> (files w); df := df w |}, Ret tt).

(** [fig.savefig(fname)]: the figure as it is now goes to the file. *)
Definition savefig (fig : loc) (fname : string) : M unit :=
  g ← load_figure fig; write_file fname g.

(** [g.plot(kind='bar', ax=ax)]: the bar containers of the grid; the rows
    label the ticks, and a first legend lists the columns.  A grid without
    columns has nothing to plot. *)
Definition plot_bar (g : Grid) (fig : loc) (i : nat) : M unit :=
  match grid_columns g with
  | [] => lift (Raise (TypeError "no numeric data to plot"))
  | _ :: _ =>
      let bars := bar_containers g in
      on_axes fig i (fun a =>
        ax_legend_handles bars (map pretty (grid_columns g)) (grid_columns_name g)
          (with_xlabel (grid_index_name g)
            (with_xticklabels (map LInt (grid_index g))
              (with_artists bars a))))
  end.

(** ** seaborn *)

#[global] Instance Month_eq_dec : EqDecision Month.
Proof. solve_decision. Defined.
#[global] Instance Timestamp_eq_dec : EqDecision Timestamp.
Proof. solve_decision. Defined.
#[global] Instance Label_eq_dec : EqDecision Label.
Proof. solve_decision. Defined.

Fixpoint unique_from (seen : list Label) (l : list Label) : list Label :=
  match l with
  | [] => []
  | x :: rest =>
      if bool_decide (x ∈ seen) then unique_from seen rest
      else x :: unique_from (x :: seen) rest
  end.

(** The levels of a categorical axis: [order] when it is given; otherwise the
    distinct values, sorted when numeric and by first appearance when not. *)
Definition categorical_order (c : Column) (order : option (list Label)) : list Label :=
  match order with
  | Some o => o
  | None =>
      match c with
      | IntCol xs => map LInt (sorted_unique xs)
      | _ => unique_from [] (cells c)
      end
  end.

Definition group_values (level : Label) (xs : list Label) (ys : list Z) : list Z :=
  map snd (List.filter (fun p => bool_decide (p.1 = level)) (zip xs ys)).

(** [sns.boxplot(x=x, y=y, data=data, ax=ax, order=order)]: one box per level,
    over the [y] values of the rows at that level (none for a level without
    rows); the levels label the ticks and the two column names label the
    axes.  On data without rows the call returns at once and leaves the axes
    as they are. *)
Definition sns_boxplot (x y : string) (data : loc) (fig : loc) (i : nat)
    (order : option (list Label)) : M unit :=
  d ← load_frame data;
  xc ← lift (getcol d x);
  ys ← lift (getcol d y ≫= numeric);
  let levels := categorical_order xc order in
  let groups := map (fun g => (g, group_values g (cells xc) ys)) levels in
  match ys with
  | [] => mret tt
  | _ :: _ =>
      on_axes fig i (fun a =>
        with_ylabel y
          (with_xlabel x (with_xticklabels levels (with_artists [BoxPlot groups] a))))
  end.

(** * The script *)

(** [df['value']], read through the global name. *)
Definition df_value : M (list Z) :=
  d ← global_df ≫= load_frame;
  lift (getcol d "value" ≫= numeric).

(** The module body (lines 11-19): load, then keep the rows whose value lies
    between the two quantiles; [df] ends up bound to the selection. *)
Definition module_body (csv : list Row) : M unit :=
  l ← alloc (ODataFrame (read_csv csv));
  bind_df l;;
  d ← global_df ≫= load_frame;
  v1 ← df_value;
  v2 ← df_value;
  let ge := series_ge v1 (quantile (25 # 1000) v2) in
  v3 ← df_value;
  v4 ← df_value;
  let le := series_le v3 (quantile (975 # 1000) v4) in
  l' ← alloc (ODataFrame (select (mask_and ge le) d));
  bind_df l'.

Definition draw_line_plot : M pyval :=
  fig ← subplots 1 (15, 5);
  d ← global_df ≫= load_frame;
  v ← lift (getcol d "value");
  on_axes fig 0 (with_artists [Line2D (index d) v "red" 1]);;
  on_axes fig 0 (with_title "Daily freeCodeCamp Forum Page Views 5/2016-12/2019");;
  on_axes fig 0 (with_xlabel "Date");;
  on_axes fig 0 (with_ylabel "Page Views");;
  savefig fig "line_plot.png";;
  mret (PyRef fig).

Definition months : list string :=
  ["January"; "February"; "March"; "April"; "May"; "June"; "July"; "August";
   "September"; "October"; "November"; "December"].

(** Lines 49-61 of [draw_bar_plot]: the copy gets its [year] and [month]
    columns, and [df_bar] is rebound to the grid of monthly means. *)
Definition monthly_average_grid : M Grid :=
  df_bar ← global_df ≫= copy;
  d ← load_frame df_bar;
  ys ← lift (index_year (index d));
  setcol df_bar "year" (IntCol ys);;
  d ← load_frame df_bar;
  ms ← lift (index_month (index d));
  setcol df_bar "month" (IntCol ms);;
  d ← load_frame df_bar;
  lift (groupby_mean_unstack d "year" "month" "value").

Definition draw_bar_plot : M pyval :=
  df_bar ← monthly_average_grid;
  fig ← subplots 1 (10, 8);
  plot_bar df_bar fig 0;;
  on_axes fig 0 (with_xlabel "Years");;
  on_axes fig 0 (with_ylabel "Average Page Views");;
  on_axes fig 0 (ax_legend "Months" months);;
  savefig fig "bar_plot.png";;
  mret (PyRef fig).

Definition month_order : list string :=
  ["Jan"; "Feb"; "Mar"; "Apr"; "May"; "Jun"; "Jul"; "Aug"; "Sep"; "Oct"; "Nov"; "Dec"].

Definition draw_box_plot : M pyval :=
  df_box ← global_df ≫= copy;
  reset_index_inplace df_box;;
  d ← load_frame df_box;
  ds ← lift (getcol d "date" ≫= datetimes);
  setcol df_box "year" (IntCol (map year ds));;
  d ← load_frame df_box;
  ds ← lift (getcol d "date" ≫= datetimes);
  setcol df_box "month" (StrCol (map strftime_b ds));;
  fig ← subplots 2 (20, 8);
  sns_boxplot "year" "value" df_box fig 0 None;;
  on_axes fig 0 (with_title "Year-wise Box Plot (Trend)");;
  on_axes fig 0 (with_xlabel "Year");;
  on_axes fig 0 (with_ylabel "Page Views");;
  sns_boxplot "month" "value" df_box fig 1 (Some (map LStr month_order));;
  on_axes fig 1 (with_title "Month-wise Box Plot (Seasonality)");;
  on_axes fig 1 (with_xlabel "Month");;
  on_axes fig 1 (with_ylabel "Page Views");;
  savefig fig "box_plot.png";;
  mret (PyRef fig).

(** The renderers by name, and sessions: the module body followed by any
    sequence of renderer calls (a caller may go on after a call has raised). *)
Inductive Renderer := LinePlot | BarPlot | BoxPlots.

#[global] Instance Renderer_eq_dec : EqDecision Renderer.
Proof. solve_decision. Defined.

Definition call (r : Renderer) : M pyval :=
  match r with
  | LinePlot => draw_line_plot
  | BarPlot => draw_bar_plot
  | BoxPlots => draw_box_plot
  end.

Definition output_file (r : Renderer) : string :=
  match r with
  | LinePlot => "line_plot.png"
  | BarPlot => "bar_plot.png"
  | BoxPlots => "box_plot.png"
  end.

Fixpoint run_calls (rs : list Renderer) (w : World) : World :=
  match rs with
  | [] => w
  | r :: rs' => run_calls rs' (call r w).1
  end.

(** The world once the module has been imported from a file holding [csv]. *)
Definition loaded (csv : list Row) : World := (module_body csv empty_world).1.

Definition session (csv : list Row) (rs : list Renderer) : World :=
  run_calls rs (loaded csv).

(** ** Reading tables back from the store *)

(** The rows of a date-indexed frame with an integer [value] column. *)
Definition frame_rows (d : DataFrame) : option (list Row) :=
  match index d, assoc_get "value" (columns d) with
  | DatetimeIndex _ ds, Some (IntCol vs) => Some (zip_with Build_Row ds vs)
  | _, _ => None
  end.

(** The table held by the object [df] is bound to. *)
Definition shared_table (w : World) : option (list Row) :=
  l ← df w;
  o ← heap w !! l;
  match o with ODataFrame d => frame_rows d | OFigure _ => None end.

(** Table: the frame [df] names after line 11; FilteredTable: after line 19. *)
Definition Table (csv : list Row) : option (list Row) := frame_rows (read_csv csv).

Definition FilteredTable (csv : list Row) : option (list Row) :=
  shared_table (loaded csv).

(** The band test of lines 18-19 on one value. *)
Definition in_band (lo hi : option Q) (v : Z) : bool :=
  match lo, hi with
  | Some l, Some h => Qle_bool l (inject_Z v) && Qle_bool (inject_Z v) h
  | _, _ => false
  end.

Definition within (lo hi : option Q) (v : Z) : Prop :=
  exists l h, lo = Some l /\ hi = Some h /\ (l <= inject_Z v)%Q /\ (inject_Z v <= h)%Q.

(** The rows of [csv] inside the band of its own two quantiles. *)
Definition kept (csv : list Row) : list Row :=
  List.filter
    (fun r => in_band (quantile (25 # 1000) (map value csv))
                      (quantile (975 # 1000) (map value csv)) (value r))
    csv.

(** ** What the renderers leave behind

    The frames and figures the three renderers build from the rows [df]
    holds; the run lemmas below show that the script computes them. *)

Definition line_figure (rows : list Row) : Figure :=
  {| figsize := (15, 5);
     axes := [ {| title := "Daily freeCodeCamp Forum Page Views 5/2016-12/2019";
                  xlabel := "Date"; ylabel := "Page Views";
                  artists := [Line2D (DatetimeIndex "date" (map date rows))
                                     (IntCol (map value rows)) "red" 1];
                  xticklabels := []; legend := None |} ] |}.

Definition bar_frame (rows : list Row) : DataFrame :=
  {| index := DatetimeIndex "date" (map date rows);
     columns := [("value", IntCol (map value rows));
                 ("year", IntCol (map year (map date rows)));
                 ("month", IntCol (map month (map date rows)))] |}.

Definition bar_grid (rows : list Row) : Grid :=
  unstack ("year", "month")
    (groupby_mean (zip (map year (map date rows)) (map month (map date rows)))
                  (map value rows)).

Definition bar_axes (g : Grid) : Axes :=
  ax_legend "Months" months
    (with_ylabel "Average Page Views"
      (with_xlabel "Years"
        (ax_legend_handles (bar_containers g) (map pretty (grid_columns g))
           (grid_columns_name g)
           (with_xlabel (grid_index_name g)
             (with_xticklabels (map LInt (grid_index g))
               (with_artists (bar_containers g) empty_axes)))))).

Definition bar_figure (g : Grid) : Figure :=
  {| figsize := (10, 8); axes := [bar_axes g] |}.

Definition box_frame (rows : list Row) : DataFrame :=
  {| index := RangeIndex (length (map date rows));
     columns := [("date", DateCol (map date rows));
                 ("value", IntCol (map value rows));
                 ("year", IntCol (map year (map date rows)));
                 ("month", StrCol (map strftime_b (map date rows)))] |}.

Definition box_groups (levels xs : list Label) (ys : list Z) : list (Label * list Z) :=
  map (fun g => (g, group_values g xs ys)) levels.

Definition year_axes (rows : list Row) : Axes :=
  let years := map year (map date rows) in
  let levels := map LInt (sorted_unique years) in
  with_ylabel "Page Views"
    (with_xlabel "Year"
      (with_title "Year-wise Box Plot (Trend)"
        (with_ylabel "value"
          (with_xlabel "year"
            (with_xticklabels levels
              (with_artists
                 [BoxPlot (box_groups levels (map LInt years) (map value rows))]
                 empty_axes)))))).

Definition month_axes (rows : list Row) : Axes :=
  let levels := map LStr month_order in
  with_ylabel "Page Views"
    (with_xlabel "Month"
      (with_title "Month-wise Box Plot (Seasonality)"
        (with_ylabel "value"
          (with_xlabel "month"
            (with_xticklabels levels
              (with_artists
                 [BoxPlot (box_groups levels
                             (map LStr (map strftime_b (map date rows)))
                             (map value rows))]
                 empty_axes)))))).

Definition box_figure (rows : list Row) : Figure :=
  {| figsize := (20, 8); axes := [year_axes rows; month_axes rows] |}.

(** The figure of the box renderer on a table without rows: titles and axis
    labels, and nothing drawn. *)
Definition blank_box_figure : Figure :=
  {| figsize := (20, 8);
     axes := [ with_ylabel "Page Views"
                 (with_xlabel "Year"
                   (with_title "Year-wise Box Plot (Trend)" empty_axes));
               with_ylabel "Page Views"
                 (with_xlabel "Month"
                   (with_title "Month-wise Box Plot (Seasonality)" empty_axes)) ] |}.

(** ** Notions used in the proofs

    The order on keys, the running sums of one key, the rows of a group and
    its mean, and what it means for a renderer to produce a figure. *)

Definition key_lt (a b : Key) : Prop := key_ltb a b = true.

Fixpoint acc_get (k : Key) (acc : list (Key * (Z * Z))) : option (Z * Z) :=
  match acc with
  | [] => None
  | (k', x) :: rest => if key_eqb k k' then Some x else acc_get k rest
  end.

Definition add_value (o : option (Z * Z)) (v : Z) : Z * Z :=
  match o with
  | Some (s, n) => (s + v, n + 1)
  | None => (v, 1)
  end.

Definition add_all (o : option (Z * Z)) (vs : list Z) : option (Z * Z) :=
  fold_left (fun o v => Some (add_value o v)) vs o.

(** The values filed under key [k], in row order. *)
Definition values_at (k : Key) (kvs : list (Key * Z)) : list Z :=
  map snd (List.filter (fun kv => key_eqb kv.1 k) kvs).

Definition total (vs : list Z) : Z := foldr Z.add 0 vs.

(** The arithmetic mean: the sum of the values over their number. *)
Definition mean (vs : list Z) : Q :=
  (inject_Z (total vs) / inject_Z (Z.of_nat (length vs)))%Q.

Definition keys_sorted (acc : list (Key * (Z * Z))) : Prop :=
  StronglySorted key_lt (map fst acc).

Definition row_key (r : Row) : Key := (year (date r), month (date r)).

(** The values of the rows of year [y] and month [m], in row order. *)
Definition group (rows : list Row) (y m : Z) : list Z :=
  map value (List.filter (fun r => key_eqb (row_key r) (y, m)) rows).

Definition bar_series (rows : list Row) : list (Key * Q) :=
  groupby_mean (zip (map year (map date rows)) (map month (map date rows)))
               (map value rows).

(** Running [m] on [w] returns a reference to a figure that holds [f], and
    [f] is what the run has written to the file [name]. *)
Definition renders (m : M pyval) (w : World) (name : string) (f : Figure) : Prop :=
  exists w' l, m w = (w', Ret (PyRef l))
    /\ heap w' !! l = Some (OFigure f) /\ files w' !! name = Some f.

(** ** Tables used as examples *)

(** The three-row table of the scenario. *)
Definition scenario : list Row :=
  [ {| date := {| year := 2016; calendar_month := May; day := 9 |}; value := 1201 |};
    {| date := {| year := 2016; calendar_month := May; day := 10 |}; value := 2329 |};
    {| date := {| year := 2016; calendar_month := May; day := 11 |}; value := 1716 |} ].

(** The first two rows of the scenario: two rows with different values. *)
Definition two_rows : list Row :=
  [ {| date := {| year := 2016; calendar_month := May; day := 9 |}; value := 1201 |};
    {| date := {| year := 2016; calendar_month := May; day := 10 |}; value := 2329 |} ].

(** A table with rows in May only. *)
Definition may_only : list Row :=
  [ {| date := {| year := 2016; calendar_month := May; day := 9 |}; value := 1201 |} ].

(** A table with one row in May 2016 and one in June 2017, of equal value. *)
Definition two_months : list Row :=
  [ {| date := {| year := 2016; calendar_month := May; day := 9 |}; value := 100 |};
    {| date := {| year := 2017; calendar_month := Jun; day := 10 |}; value := 100 |} ].

(** A table with one row in each month of 2016, all of the same value. *)
Definition full_year : list Row :=
  map (fun m => {| date := {| year := 2016; calendar_month := m; day := 1 |};
                   value := 100 |})
      [Jan; Feb; Mar; Apr; May; Jun; Jul; Aug; Sep; Oct; Nov; Dec].

(** Values of at most 31 bits.  At this size the float64 interpolation of
    pandas keeps a threshold that lies strictly between two integers away
    from both, as the exact one is; from about 2^48 on it can round onto
    one of them. *)
Definition small_count (v : Z) : Prop := Z.abs v < 2 ^ 31.

(** The value read at fractional position [pos] of the list [s]. *)
Definition interpolate (s : list Z) (pos : Q) : Q :=
  let lo := Qfloor pos in
  let frac := (pos - inject_Z lo)%Q in
  let a := nth (Z.to_nat lo) s 0 in
  let b := nth (S (Z.to_nat lo)) s a in
  (inject_Z a + (inject_Z b - inject_Z a) * frac)%Q.

(** The figure a renderer draws from the rows [df] holds. *)
Definition figure_of (r : Renderer) (rows : list Row) : Figure :=
  match r with
  | LinePlot => line_figure rows
  | BarPlot => bar_figure (bar_grid rows)
  | BoxPlots =>
      match rows with
      | [] => blank_box_figure
      | _ :: _ => box_figure rows
      end
  end.

(** Whether a renderer gets as far as saving: the bar renderer raises on a
    table without rows. *)
Definition draws (r : Renderer) (rows : list Row) : bool :=
  match r, rows with
  | BarPlot, [] => false
  | _, _ => true
  end.

(** The height of the bar of year [y] and month [m]: the mean of the group,
    and 0 where the year has no row in that month. *)
Definition bar_height (rows : list Row) (y m : Z) : Q :=
  match group rows y m with
  | [] => 0%Q
  | _ :: _ => mean (group rows y m)
  end.

Definition container_label (a : Artist) : option string :=
  match a with
  | BarContainer l _ => Some l
  | _ => None
  end.

(** * Proofs *)

(** ** Masks and selection *)

Lemma mask_and_in_band (vs : list Z) (lo hi : option Q) :
  mask_and (series_ge vs lo) (series_le vs hi) = map (in_band lo hi) vs.
Proof.
  unfold series_ge, series_le.
  induction vs as [|v vs IH]; [reflexivity|].
  cbn [map mask_and]. rewrite IH. f_equal.
  destruct lo, hi; cbn; try reflexivity. by rewrite andb_false_r.
Qed.

Lemma mask_filter_map {A B : Type} (p : A -> bool) (h : A -> B) (l : list A) :
  mask_filter (map p l) (map h l) = map h (List.filter p l).
Proof.
  induction l as [|x l IH]; [reflexivity|].
  cbn. destruct (p x); cbn; by rewrite IH.
Qed.

Lemma select_read_csv (p : Z -> bool) (csv : list Row) :
  select (map p (map value csv)) (read_csv csv)
  = read_csv (List.filter (fun r => p (value r)) csv).
Proof.
  unfold select, read_csv. cbn. rewrite map_map.
  by rewrite !(mask_filter_map (fun r => p (value r))).
Qed.

Lemma frame_rows_read_csv (rows : list Row) : frame_rows (read_csv rows) = Some rows.
Proof.
  unfold frame_rows, read_csv. cbn. f_equal.
  induction rows as [|[d v] rows IH]; [reflexivity|]. cbn. by rewrite IH.
Qed.

Lemma in_band_within (lo hi : option Q) (v : Z) :
  in_band lo hi v = true <-> within lo hi v.
Proof.
  unfold in_band, within. split.
  - destruct lo as [l|], hi as [h|]; try discriminate.
    rewrite andb_true_iff, !Qle_bool_iff. intros [? ?]. by exists l, h.
  - intros (l & h & -> & -> & ? & ?).
    rewrite andb_true_iff, !Qle_bool_iff. done.
Qed.

(** ** The module body *)

Lemma module_body_run (csv : list Row) :
  module_body csv empty_world =
  ({| heap := [ODataFrame (read_csv csv); ODataFrame (read_csv (kept csv))];
      files := ∅; df := Some 1%nat |}, Ret tt).
Proof.
  unfold module_body, df_value, empty_world.
  cbv [mbind mret M_bind M_ret outcome_bind outcome_ret alloc bind_df global_df
       load_frame lift set_heap getcol numeric heap df files].
  cbn [app length lookup list_lookup].
  change (columns (read_csv csv)) with [("value", IntCol (map value csv))].
  cbn -[quantile series_ge series_le mask_and select read_csv].
  rewrite mask_and_in_band, select_read_csv. reflexivity.
Qed.

Lemma loaded_eq (csv : list Row) :
  loaded csv =
  {| heap := [ODataFrame (read_csv csv); ODataFrame (read_csv (kept csv))];
     files := ∅; df := Some 1%nat |}.
Proof. unfold loaded. by rewrite module_body_run. Qed.

Lemma FilteredTable_kept (csv : list Row) : FilteredTable csv = Some (kept csv).
Proof.
  unfold FilteredTable, shared_table. rewrite loaded_eq. cbn -[frame_rows].
  apply frame_rows_read_csv.
Qed.

(** ** The outlier filter *)

Lemma filter_sublist {A : Type} (p : A -> bool) (l : list A) :
  sublist (List.filter p l) l.
Proof.
  induction l as [|x l IH]; cbn; [constructor|].
  destruct (p x); by constructor.
Qed.

Lemma elem_of_bool_filter {A : Type} (p : A -> bool) (l : list A) (x : A) :
  x ∈ List.filter p l <-> x ∈ l /\ p x = true.
Proof. rewrite !list_elem_of_In. apply filter_In. Qed.

(** C1. The table [df] names after the module body holds exactly the rows of
    the loaded table, in their order and with their multiplicity, whose
    value lies between the 2.5% and the 97.5% quantile (both ends included),
    and both quantiles are those of the value column of the whole loaded
    table. *)
Theorem filtered_table_is_quantile_band (csv : list Row) :
  let lo := quantile (25 # 1000) (map value csv) in
  let hi := quantile (975 # 1000) (map value csv) in
  FilteredTable csv = Some (List.filter (fun r => in_band lo hi (value r)) csv)
  /\ forall r : Row,
       r ∈ List.filter (fun r => in_band lo hi (value r)) csv
       <-> r ∈ csv /\ within lo hi (value r).
Proof.
  intros lo hi. split.
  - apply FilteredTable_kept.
  - intros r. rewrite elem_of_bool_filter. by rewrite in_band_within.
Qed.

(** C2, as stated, fails: on the three-row table the filter does remove
    rows, so the filtered table is not the loaded table. *)
Lemma scenario_filter_removes_rows :
  Table scenario = Some scenario /\ FilteredTable scenario <> Table scenario.
Proof.
  split; [apply frame_rows_read_csv|].
  rewrite FilteredTable_kept. unfold Table. rewrite frame_rows_read_csv.
  vm_compute. discriminate.
Qed.

(** C2, amended. On the three-row table the two thresholds are 1226.75 and
    2298.35; the rows holding the smallest and the largest value fall
    outside, and the filtered table is the single row (2016-05-11, 1716). *)
Theorem scenario_filter_keeps_middle_row :
  (exists lo hi, quantile (25 # 1000) (map value scenario) = Some lo
       /\ quantile (975 # 1000) (map value scenario) = Some hi
       /\ (lo == 122675 # 100)%Q /\ (hi == 229835 # 100)%Q)
  /\ FilteredTable scenario =
     Some [ {| date := {| year := 2016; calendar_month := May; day := 11 |};
               value := 1716 |} ].
Proof.
  split.
  - eexists _, _. split; [reflexivity|]. split; [reflexivity|].
    split; reflexivity.
  - rewrite FilteredTable_kept. reflexivity.
Qed.

(** C6. The filtered table is a sub-table of the loaded one: its rows are
    rows of the loaded table, unchanged and in the same order, and there are
    no more of them. *)
Theorem filtered_table_subset (csv : list Row) :
  exists rows,
    FilteredTable csv = Some rows
    /\ Table csv = Some csv
    /\ sublist rows csv
    /\ rows ⊆ csv
    /\ (length rows <= length csv)%nat.
Proof.
  exists (kept csv). split; [apply FilteredTable_kept|].
  split; [apply frame_rows_read_csv|].
  assert (Hs : sublist (kept csv) csv) by apply filter_sublist.
  split; [done|]. split.
  - by apply sublist_subseteq.
  - by apply sublist_length.
Qed.

(** ** Running the renderers *)

Lemma lookup_snoc (h : list Obj) (o : Obj) : (h ++ [o]) !! length h = Some o.
Proof. by rewrite list_lookup_middle. Qed.

Lemma insert_snoc (h : list Obj) (o o' : Obj) :
  <[length h := o']> (h ++ [o]) = h ++ [o'].
Proof.
  rewrite insert_app_r_alt by lia. by rewrite Nat.sub_diag.
Qed.

Ltac unfold_run :=
  cbv [mbind mret M_bind M_ret outcome_bind outcome_ret alloc bind_df global_df
       load_frame store_frame load_figure store_figure lift set_heap getcol
       numeric datetimes copy setcol on_axes savefig write_file subplots
       plot_bar sns_boxplot reset_index_inplace index_year index_month
       groupby_mean_unstack heap df files].

Lemma draw_line_plot_run h fs l rows :
  h !! l = Some (ODataFrame (read_csv rows)) ->
  draw_line_plot {| heap := h; files := fs; df := Some l |} =
  ({| heap := h ++ [OFigure (line_figure rows)];
      files := <["line_plot.png" := line_figure rows]> fs;
      df := Some l |}, Ret (PyRef (length h))).
Proof.
  intros H. unfold draw_line_plot. unfold_run.
  rewrite (lookup_app_l_Some _ _ _ _ H).
  cbn -[app].
  repeat (rewrite ?lookup_snoc, ?insert_snoc; cbn -[app]).

  reflexivity.
Qed.

Lemma monthly_average_grid_run h fs l rows :
  h !! l = Some (ODataFrame (read_csv rows)) ->
  monthly_average_grid {| heap := h; files := fs; df := Some l |} =
  ({| heap := h ++ [ODataFrame (bar_frame rows)]; files := fs; df := Some l |},
   Ret (bar_grid rows)).
Proof.
  intros H. unfold monthly_average_grid. unfold_run.
  rewrite H.
  repeat (rewrite ?lookup_snoc, ?insert_snoc; cbn -[app unstack groupby_mean]).
  reflexivity.
Qed.

Lemma draw_bar_plot_run h fs l rows :
  h !! l = Some (ODataFrame (read_csv rows)) ->
  draw_bar_plot {| heap := h; files := fs; df := Some l |} =
  match grid_columns (bar_grid rows) with
  | [] =>
      ({| heap := (h ++ [ODataFrame (bar_frame rows)])
                    ++ [OFigure {| figsize := (10, 8); axes := [empty_axes] |}];
          files := fs; df := Some l |},
       Raise (TypeError "no numeric data to plot"))
  | _ :: _ =>
      ({| heap := (h ++ [ODataFrame (bar_frame rows)])
                    ++ [OFigure (bar_figure (bar_grid rows))];
          files := <["bar_plot.png" := bar_figure (bar_grid rows)]> fs;
          df := Some l |},
       Ret (PyRef (S (length h))))
  end.
Proof.
  intros H. unfold draw_bar_plot.
  change (?m ≫= ?f) with (M_bind _ _ f m).
  unfold M_bind at 1.
  rewrite (monthly_average_grid_run _ _ _ _ H).
  generalize (bar_grid rows). intros g.
  unfold_run.
  destruct (grid_columns g) eqn:Hc.
  - reflexivity.
  - repeat (rewrite ?lookup_snoc, ?insert_snoc; cbn -[app pretty bar_containers]).
    rewrite length_app, Nat.add_1_r. unfold bar_figure, bar_axes.
    rewrite Hc.
    reflexivity.
Qed.

Lemma draw_box_plot_run h fs l rows :
  h !! l = Some (ODataFrame (read_csv rows)) ->
  draw_box_plot {| heap := h; files := fs; df := Some l |} =
  match rows with
  | [] =>
      ({| heap := (h ++ [ODataFrame (box_frame rows)]) ++ [OFigure blank_box_figure];
          files := <["box_plot.png" := blank_box_figure]> fs;
          df := Some l |},
       Ret (PyRef (S (length h))))
  | _ :: _ =>
      ({| heap := (h ++ [ODataFrame (box_frame rows)]) ++ [OFigure (box_figure rows)];
          files := <["box_plot.png" := box_figure rows]> fs;
          df := Some l |},
       Ret (PyRef (S (length h))))
  end.
Proof.
  intros H. unfold draw_box_plot. unfold_run.
  rewrite H.
  destruct rows as [|r rows];
    repeat (rewrite ?lookup_snoc, ?insert_snoc,
                    ?(lookup_app_l_Some _ _ _ _ (lookup_snoc h _));
            cbn -[app sorted_unique group_values]);
    rewrite length_app, Nat.add_1_r; reflexivity.
Qed.

(** ** Sorted insertion *)

Lemma elem_of_insert_unique (z x : Z) (l : list Z) :
  x ∈ insert_unique z l <-> x = z \/ x ∈ l.
Proof.
  induction l as [|y l IH]; cbn.
  - rewrite list_elem_of_singleton, elem_of_nil. tauto.
  - destruct (Z.eqb_spec z y) as [->|Hne].
    { rewrite elem_of_cons. tauto. }
    destruct (z <? y).
    { rewrite !elem_of_cons. tauto. }
    rewrite !elem_of_cons, IH. tauto.
Qed.

Lemma insert_unique_sorted (z : Z) (l : list Z) :
  StronglySorted Z.lt l -> StronglySorted Z.lt (insert_unique z l).
Proof.
  induction l as [|y l IH]; intros Hs; cbn.
  - repeat constructor.
  - apply StronglySorted_cons in Hs as [Hy Hl].
    destruct (Z.eqb_spec z y) as [->|Hne]; [by apply StronglySorted_cons|].
    destruct (Z.ltb_spec z y) as [Hlt|Hge].
    + apply StronglySorted_cons. split; [|by apply StronglySorted_cons].
      constructor; [done|]. eapply Forall_impl; [exact Hy|]. intros; cbn in *; lia.
    + apply StronglySorted_cons. split; [|by apply IH].
      apply Forall_forall. intros x Hx.
      apply elem_of_insert_unique in Hx as [->|Hx]; [lia|].
      rewrite Forall_forall in Hy. by apply Hy.
Qed.

Lemma elem_of_sorted_unique (x : Z) (l : list Z) : x ∈ sorted_unique l <-> x ∈ l.
Proof.
  unfold sorted_unique. induction l as [|y l IH]; cbn; [done|].
  rewrite elem_of_insert_unique, IH, elem_of_cons. tauto.
Qed.

Lemma sorted_unique_sorted (l : list Z) : StronglySorted Z.lt (sorted_unique l).
Proof.
  unfold sorted_unique. induction l as [|y l IH]; cbn; [constructor|].
  by apply insert_unique_sorted.
Qed.

Lemma sorted_lt_NoDup (l : list Z) : StronglySorted Z.lt l -> NoDup l.
Proof.
  induction 1 as [|x l Hs IH Hx]; constructor; [|done].
  intros Hin. rewrite Forall_forall in Hx.
  apply Hx in Hin. lia.
Qed.

(** Two strictly increasing lists with the same elements are the same list. *)
Lemma sorted_lt_ext (l1 l2 : list Z) :
  StronglySorted Z.lt l1 -> StronglySorted Z.lt l2 ->
  (forall x, x ∈ l1 <-> x ∈ l2) -> l1 = l2.
Proof.
  revert l2. induction l1 as [|x1 l1 IH]; intros [|x2 l2] H1 H2 Heq.
  - done.
  - exfalso. eapply not_elem_of_nil, Heq. left.
  - exfalso. eapply not_elem_of_nil, Heq. left.
  - apply StronglySorted_cons in H1 as [Hx1 H1].
    apply StronglySorted_cons in H2 as [Hx2 H2].
    rewrite Forall_forall in Hx1, Hx2.
    assert (x1 = x2) as ->.
    { assert (E1 : x1 ∈ x2 :: l2) by (apply Heq; left).
      assert (E2 : x2 ∈ x1 :: l1) by (apply Heq; left).
      apply elem_of_cons in E1 as [?|E1]; [done|].
      apply elem_of_cons in E2 as [?|E2]; [done|].
      apply Hx2 in E1. apply Hx1 in E2. lia. }
    f_equal. apply IH; [done..|].
    intros x. split; intros Hx.
    + assert (E : x ∈ x2 :: l2) by (apply Heq; by right).
      apply elem_of_cons in E as [->|E]; [|done].
      apply Hx1 in Hx. lia.
    + assert (E : x ∈ x2 :: l1) by (apply Heq; by right).
      apply elem_of_cons in E as [->|E]; [|done].
      apply Hx2 in Hx. lia.
Qed.

Lemma filter_sorted_lt (P : Z -> Prop) `{!forall x, Decision (P x)} (l : list Z) :
  StronglySorted Z.lt l -> StronglySorted Z.lt (filter P l).
Proof.
  induction 1 as [|x l Hs IH Hx]; [constructor|].
  rewrite filter_cons. destruct (decide (P x)); [|done].
  constructor; [done|].
  rewrite Forall_forall in *. intros y Hy.
  apply Hx. by apply list_elem_of_filter in Hy as [_ ?].
Qed.

Lemma month_in_range (d : Timestamp) : month d ∈ seqZ 1 12.
Proof. unfold month. destruct (calendar_month d); vm_compute; set_solver. Qed.

(** ** Grouped sums *)

Ltac key_cases :=
  unfold key_lt, key_ltb, key_eqb in *; cbn [fst snd] in *;
  repeat match goal with
         | k : Key |- _ => destruct k
         end;
  cbn [fst snd] in *;
  repeat match goal with
         | |- context [Z.eqb ?a ?b] => destruct (Z.eqb_spec a b)
         | |- context [Z.ltb ?a ?b] => destruct (Z.ltb_spec a b)
         | H : context [Z.eqb ?a ?b] |- _ => destruct (Z.eqb_spec a b)
         | H : context [Z.ltb ?a ?b] |- _ => destruct (Z.ltb_spec a b)
         end;
  cbn in *; try congruence; try lia.

Lemma key_eqb_eq (a b : Key) : key_eqb a b = true <-> a = b.
Proof. split; [|intros ->]; key_cases. Qed.

Lemma key_eqb_refl (a : Key) : key_eqb a a = true.
Proof. by apply key_eqb_eq. Qed.

Lemma key_eqb_sym (a b : Key) : key_eqb a b = key_eqb b a.
Proof. key_cases. Qed.

Lemma key_lt_trans (a b c : Key) : key_lt a b -> key_lt b c -> key_lt a c.
Proof. intros; key_cases. Qed.

Lemma key_lt_neq (a b : Key) : key_lt a b -> key_eqb a b = false.
Proof. intros; key_cases. Qed.

Lemma key_total (a b : Key) :
  key_eqb a b = false -> key_ltb a b = false -> key_lt b a.
Proof. intros; key_cases. Qed.

Lemma acc_get_below (k : Key) (acc : list (Key * (Z * Z))) :
  Forall (key_lt k) (map fst acc) -> acc_get k acc = None.
Proof.
  induction acc as [|[k0 x] acc IH]; [done|]. cbn.
  intros H. apply Forall_cons in H as [H0 H].
  rewrite (key_lt_neq _ _ H0). by apply IH.
Qed.

Lemma accumulate_keys (k : Key) (v : Z) (acc : list (Key * (Z * Z))) (k' : Key) :
  k' ∈ map fst (accumulate k v acc) <-> k' = k \/ k' ∈ map fst acc.
Proof.
  induction acc as [|[k0 [s n]] acc IH]; cbn.
  - rewrite list_elem_of_singleton, elem_of_nil. tauto.
  - destruct (key_eqb k k0) eqn:E.
    { apply key_eqb_eq in E as ->. cbn. rewrite !elem_of_cons. tauto. }
    destruct (key_ltb k k0); cbn; rewrite !elem_of_cons.
    + tauto.
    + rewrite IH. tauto.
Qed.

Lemma accumulate_sorted (k : Key) (v : Z) (acc : list (Key * (Z * Z))) :
  keys_sorted acc -> keys_sorted (accumulate k v acc).
Proof.
  unfold keys_sorted.
  induction acc as [|[k0 [s n]] acc IH]; cbn; intros Hs.
  - repeat constructor.
  - apply StronglySorted_cons in Hs as [H0 Hs].
    destruct (key_eqb k k0) eqn:E; [by apply StronglySorted_cons|].
    destruct (key_ltb k k0) eqn:L; cbn.
    + apply StronglySorted_cons. split; [|by apply StronglySorted_cons].
      constructor; [done|].
      eapply Forall_impl; [exact H0|]. intros k1 ?. by apply key_lt_trans with k0.
    + apply StronglySorted_cons. split; [|by apply IH].
      apply Forall_forall. intros k1 Hk1.
      apply accumulate_keys in Hk1 as [->|Hk1].
      * by apply key_total.
      * rewrite Forall_forall in H0. by apply H0.
Qed.

Lemma accumulate_get (k : Key) (v : Z) (acc : list (Key * (Z * Z))) (k' : Key) :
  keys_sorted acc ->
  acc_get k' (accumulate k v acc) =
  if key_eqb k' k then Some (add_value (acc_get k acc) v) else acc_get k' acc.
Proof.
  unfold keys_sorted.
  induction acc as [|[k0 [s n]] acc IH]; cbn; intros Hs.
  - reflexivity.
  - apply StronglySorted_cons in Hs as [H0 Hs].
    destruct (key_eqb k k0) eqn:E.
    + apply key_eqb_eq in E as ->. cbn. by destruct (key_eqb k' k0).
    + destruct (key_ltb k k0) eqn:L; cbn; rewrite ?E.
      * rewrite (acc_get_below k acc); [done|].
        eapply Forall_impl; [exact H0|]. intros k1 ?. by apply key_lt_trans with k0.
      * rewrite IH by done.
        destruct (key_eqb k' k0) eqn:E0; [|done].
        apply key_eqb_eq in E0 as ->. by rewrite key_eqb_sym, E.
Qed.

Lemma fold_accumulate_sorted (kvs : list (Key * Z)) (acc : list (Key * (Z * Z))) :
  keys_sorted acc ->
  keys_sorted (fold_left (fun acc kv => accumulate kv.1 kv.2 acc) kvs acc).
Proof.
  revert acc. induction kvs as [|kv kvs IH]; intros acc Hs; [done|].
  cbn. by apply IH, accumulate_sorted.
Qed.

Lemma fold_accumulate_get (kvs : list (Key * Z)) (acc : list (Key * (Z * Z)))
    (k : Key) :
  keys_sorted acc ->
  acc_get k (fold_left (fun acc kv => accumulate kv.1 kv.2 acc) kvs acc)
  = add_all (acc_get k acc) (values_at k kvs).
Proof.
  revert acc. induction kvs as [|[k0 v] kvs IH]; intros acc Hs; [done|].
  cbn [fold_left]. rewrite IH by by apply accumulate_sorted.
  rewrite accumulate_get by done. unfold values_at. cbn.
  rewrite (key_eqb_sym k0 k).
  destruct (key_eqb k k0) eqn:E; [|done].
  apply key_eqb_eq in E as ->. reflexivity.
Qed.

Lemma add_all_Some (s n : Z) (vs : list Z) :
  add_all (Some (s, n)) vs = Some (s + total vs, n + Z.of_nat (length vs)).
Proof.
  unfold add_all.
  revert s n. induction vs as [|v vs IH]; intros s n;
    cbn [fold_left add_value total foldr length].
  - f_equal. f_equal; lia.
  - rewrite IH. f_equal. unfold total. f_equal; lia.
Qed.

Lemma add_all_None (vs : list Z) :
  add_all None vs =
  match vs with
  | [] => None
  | _ :: _ => Some (total vs, Z.of_nat (length vs))
  end.
Proof.
  destruct vs as [|v vs]; [done|].
  change (add_all None (v :: vs)) with (add_all (Some (v, 1)) vs).
  rewrite add_all_Some. cbn [total foldr length]. f_equal. f_equal; lia.
Qed.

Lemma series_get_fmap (k : Key) (sums : list (Key * (Z * Z))) :
  series_get k (map (fun g => (g.1, (inject_Z g.2.1 / inject_Z g.2.2)%Q)) sums)
  = (fun x => (inject_Z x.1 / inject_Z x.2)%Q) <$> acc_get k sums.
Proof.
  induction sums as [|[k0 x] sums IH]; [done|]. cbn.
  by destruct (key_eqb k k0).
Qed.

(** The grouped mean under a key is the mean of the values filed under it. *)
Lemma groupby_mean_get (keys : list Key) (vals : list Z) (k : Key) :
  series_get k (groupby_mean keys vals) =
  match values_at k (zip keys vals) with
  | [] => None
  | _ :: _ => Some (mean (values_at k (zip keys vals)))
  end.
Proof.
  unfold groupby_mean, group_sums. rewrite series_get_fmap.
  rewrite fold_accumulate_get by constructor.
  cbn [acc_get]. rewrite add_all_None.
  by destruct (values_at k (zip keys vals)).
Qed.

Lemma series_get_None (k : Key) (s : list (Key * Q)) :
  series_get k s = None <-> k ∉ map fst s.
Proof.
  induction s as [|[k0 x] s IH]; cbn.
  - split; [intros _; apply not_elem_of_nil|done].
  - rewrite not_elem_of_cons. destruct (key_eqb k k0) eqn:E.
    + apply key_eqb_eq in E. split; [done|]. intros [? _]. done.
    + rewrite IH. split; [|tauto]. intros H. split; [|done].
      intros ->. by rewrite key_eqb_refl in E.
Qed.

(** ** The grid of a table *)

Lemma zip_rows (rows : list Row) :
  zip (zip (map year (map date rows)) (map month (map date rows))) (map value rows)
  = map (fun r => (row_key r, value r)) rows.
Proof. induction rows as [|r rows IH]; [done|]. cbn. by rewrite IH. Qed.

Lemma values_at_rows (k : Key) (rows : list Row) :
  values_at k (map (fun r => (row_key r, value r)) rows) = group rows k.1 k.2.
Proof.
  unfold values_at, group. destruct k as [y m]. cbn [fst snd].
  induction rows as [|r rows IH]; [done|]. cbn.
  destruct (key_eqb (row_key r) (y, m)); cbn; by rewrite IH.
Qed.

Lemma bar_series_get (rows : list Row) (y m : Z) :
  series_get (y, m) (bar_series rows) =
  match group rows y m with
  | [] => None
  | _ :: _ => Some (mean (group rows y m))
  end.
Proof.
  unfold bar_series. rewrite groupby_mean_get, zip_rows.
  by rewrite (values_at_rows (y, m)).
Qed.

Lemma group_nil (rows : list Row) (y m : Z) :
  group rows y m = [] <-> (y, m) ∉ map row_key rows.
Proof.
  unfold group. induction rows as [|r rows IH]; cbn.
  - split; [intros _; apply not_elem_of_nil|done].
  - rewrite not_elem_of_cons. destruct (key_eqb (row_key r) (y, m)) eqn:E; cbn.
    + apply key_eqb_eq in E. split; [done|]. intros [? _]. done.
    + rewrite IH. split; [|tauto]. intros H. split; [|done].
      intros Heq. by rewrite <- Heq, key_eqb_refl in E.
Qed.

Lemma bar_series_keys (rows : list Row) (k : Key) :
  k ∈ map fst (bar_series rows) <-> k ∈ map row_key rows.
Proof.
  destruct k as [y m].
  destruct (decide ((y, m) ∈ map row_key rows)) as [Hin|Hin].
  - split; [done|]. intros _.
    destruct (decide ((y, m) ∈ map fst (bar_series rows))) as [|Hn]; [done|].
    apply series_get_None in Hn. rewrite bar_series_get in Hn.
    destruct (group rows y m) eqn:E; [|done]. by apply group_nil in E.
  - split; [|done]. intros Hs. exfalso.
    apply group_nil in Hin.
    assert (Hn : series_get (y, m) (bar_series rows) = None)
      by by rewrite bar_series_get, Hin.
    by apply series_get_None in Hn.
Qed.

Lemma elem_of_map_iff {A B : Type} (f : A -> B) (l : list A) (y : B) :
  y ∈ map f l <-> exists x, y = f x /\ x ∈ l.
Proof. apply (list_elem_of_fmap f). Qed.

Lemma bar_grid_index_elem (rows : list Row) (y : Z) :
  y ∈ grid_index (bar_grid rows) <-> y ∈ map year (map date rows).
Proof.
  unfold bar_grid, unstack. cbn [grid_index]. fold (bar_series rows).
  rewrite elem_of_sorted_unique, !elem_of_map_iff. split.
  - intros ([k x] & -> & He).
    assert (Hk : k ∈ map fst (bar_series rows)).
    { apply elem_of_map_iff. by exists (k, x). }
    apply bar_series_keys, elem_of_map_iff in Hk as (r & -> & Hr).
    exists (date r). split; [done|]. apply elem_of_map_iff. by exists r.
  - intros (d & -> & Hd). apply elem_of_map_iff in Hd as (r & -> & Hr).
    assert (Hk : row_key r ∈ map fst (bar_series rows)).
    { apply bar_series_keys, elem_of_map_iff. by exists r. }
    apply elem_of_map_iff in Hk as (e & He & Hin).
    exists e. split; [|done]. destruct e as [k x]. cbn in *. by subst k.
Qed.

Lemma bar_grid_columns_elem (rows : list Row) (m : Z) :
  m ∈ grid_columns (bar_grid rows) <-> m ∈ map month (map date rows).
Proof.
  unfold bar_grid, unstack. cbn [grid_columns]. fold (bar_series rows).
  rewrite elem_of_sorted_unique, !elem_of_map_iff. split.
  - intros ([k x] & -> & He).
    assert (Hk : k ∈ map fst (bar_series rows)).
    { apply elem_of_map_iff. by exists (k, x). }
    apply bar_series_keys, elem_of_map_iff in Hk as (r & -> & Hr).
    exists (date r). split; [done|]. apply elem_of_map_iff. by exists r.
  - intros (d & -> & Hd). apply elem_of_map_iff in Hd as (r & -> & Hr).
    assert (Hk : row_key r ∈ map fst (bar_series rows)).
    { apply bar_series_keys, elem_of_map_iff. by exists r. }
    apply elem_of_map_iff in Hk as (e & He & Hin).
    exists e. split; [|done]. destruct e as [k x]. cbn in *. by subst k.
Qed.

Lemma bar_grid_columns_eq (rows : list Row) :
  grid_columns (bar_grid rows)
  = filter (fun m => m ∈ map month (map date rows)) (seqZ 1 12).
Proof.
  apply sorted_lt_ext.
  - apply sorted_unique_sorted.
  - apply filter_sorted_lt.
    change (seqZ 1 12) with [1; 2; 3; 4; 5; 6; 7; 8; 9; 10; 11; 12].
    repeat (apply StronglySorted_cons; split; [repeat constructor; lia|]).
    constructor.
  - intros m. rewrite bar_grid_columns_elem, list_elem_of_filter.
    split; [|tauto]. intros Hm. split; [done|].
    apply elem_of_map_iff in Hm as (d & -> & _). apply month_in_range.
Qed.

Lemma position_elem (z : Z) (l : list Z) :
  z ∈ l -> exists i, position z l = Some i /\ l !! i = Some z.
Proof.
  induction l as [|x l IH]; intros Hin; [by apply elem_of_nil in Hin|].
  cbn. destruct (Z.eqb_spec z x) as [->|Hne]; [by exists O|].
  apply elem_of_cons in Hin as [?|Hin]; [done|].
  destruct (IH Hin) as (i & -> & Hi). by exists (S i).
Qed.

Lemma position_not_elem (z : Z) (l : list Z) : z ∉ l -> position z l = None.
Proof.
  induction l as [|x l IH]; [done|]. rewrite not_elem_of_cons. intros [Hne Hin].
  cbn. destruct (Z.eqb_spec z x); [done|]. by rewrite IH.
Qed.

Lemma grid_cell_unstack (names : string * string) (s : list (Key * Q)) (y m : Z) :
  y ∈ map (fun e => e.1.1) s -> m ∈ map (fun e => e.1.2) s ->
  grid_cell (unstack names s) y m = Some (series_get (y, m) s).
Proof.
  intros Hy Hm. unfold grid_cell, unstack. cbn [grid_index grid_columns grid_data].
  apply elem_of_sorted_unique, position_elem in Hy as (i & -> & Hi).
  apply elem_of_sorted_unique, position_elem in Hm as (j & -> & Hj).
  cbn. rewrite (list_lookup_fmap _ _ i), Hi. cbn.
  by rewrite (list_lookup_fmap _ _ j), Hj.
Qed.

Lemma grid_cell_absent (names : string * string) (s : list (Key * Q)) (y m : Z) :
  y ∉ map (fun e => e.1.1) s \/ m ∉ map (fun e => e.1.2) s ->
  grid_cell (unstack names s) y m = None.
Proof.
  intros H. unfold grid_cell, unstack. cbn [grid_index grid_columns grid_data].
  destruct H as [H|H].
  - rewrite (position_not_elem y); [done|]. by rewrite elem_of_sorted_unique.
  - rewrite (position_not_elem m); [|by rewrite elem_of_sorted_unique].
    by destruct (position y _).
Qed.

(** A cell of the grid of a table: absent outside its rows and columns,
    NaN for a year and month without rows, the group's mean otherwise. *)
Lemma bar_grid_cell (rows : list Row) (y m : Z) :
  grid_cell (bar_grid rows) y m =
  if bool_decide (y ∈ map year (map date rows) /\ m ∈ map month (map date rows))
  then Some (match group rows y m with
             | [] => None
             | _ :: _ => Some (mean (group rows y m))
             end)
  else None.
Proof.
  pose proof (bar_grid_index_elem rows y) as Hy.
  pose proof (bar_grid_columns_elem rows m) as Hm.
  unfold bar_grid, unstack in Hy, Hm. cbn [grid_index grid_columns] in Hy, Hm.
  rewrite elem_of_sorted_unique in Hy, Hm.
  unfold bar_grid. fold (bar_series rows) in *.
  case_bool_decide as Hd.
  - destruct Hd as [Hd1 Hd2].
    rewrite grid_cell_unstack; [by rewrite bar_series_get|by apply Hy|by apply Hm].
  - apply grid_cell_absent.
    destruct (decide (y ∈ map year (map date rows))) as [Hd1|Hd1].
    + right. intros Hm'. apply Hd. split; [done|]. by apply Hm.
    + left. intros Hy'. apply Hd1. by apply Hy.
Qed.

(** ** Sessions *)

Lemma lookup_snoc2 (h : list Obj) (a b : Obj) :
  ((h ++ [a]) ++ [b]) !! S (length h) = Some b.
Proof.
  replace (S (length h)) with (length (h ++ [a]))
    by (rewrite length_app; cbn; lia).
  apply lookup_snoc.
Qed.

Lemma bar_grid_columns_nil (rows : list Row) :
  grid_columns (bar_grid rows) = [] <-> rows = [].
Proof.
  split.
  - destruct rows as [|r rows]; [done|]. intros Hnil. exfalso.
    assert (Hm : month (date r) ∈ grid_columns (bar_grid (r :: rows))).
    { apply bar_grid_columns_elem. cbn. left. }
    rewrite Hnil in Hm. by apply elem_of_nil in Hm.
  - intros ->. reflexivity.
Qed.

(** A call only adds objects: the store it starts from is a prefix of the
    store it leaves, and [df] keeps naming the same location. *)
Lemma call_extends (r : Renderer) h fs l rows :
  h !! l = Some (ODataFrame (read_csv rows)) ->
  exists t fs',
    (call r {| heap := h; files := fs; df := Some l |}).1
    = {| heap := h ++ t; files := fs'; df := Some l |}.
Proof.
  intros H. destruct r; cbn [call].
  - rewrite (draw_line_plot_run _ _ _ _ H). by eexists _, _.
  - rewrite (draw_bar_plot_run _ _ _ _ H).
    destruct (grid_columns (bar_grid rows)); cbn [fst];
      rewrite <- app_assoc; by eexists _, _.
  - rewrite (draw_box_plot_run _ _ _ _ H).
    destruct rows; cbn [fst]; rewrite <- app_assoc; by eexists _, _.
Qed.

Lemma run_calls_extends (rs : list Renderer) h fs l rows :
  h !! l = Some (ODataFrame (read_csv rows)) ->
  exists t fs',
    run_calls rs {| heap := h; files := fs; df := Some l |}
    = {| heap := h ++ t; files := fs'; df := Some l |}.
Proof.
  revert h fs. induction rs as [|r rs IH]; intros h fs H; cbn [run_calls].
  - exists [], fs. by rewrite app_nil_r.
  - destruct (call_extends r h fs l rows H) as (t & fs' & ->).
    destruct (IH (h ++ t) fs' (lookup_app_l_Some _ _ _ _ H)) as (t' & fs'' & ->).
    exists (t ++ t'), fs''. by rewrite app_assoc.
Qed.

(** In every session [df] names location 1, which holds the filtered table. *)
Lemma session_world (csv : list Row) (rs : list Renderer) :
  exists h fs,
    session csv rs = {| heap := h; files := fs; df := Some 1%nat |}
    /\ h !! 1%nat = Some (ODataFrame (read_csv (kept csv))).
Proof.
  unfold session. rewrite loaded_eq.
  edestruct (run_calls_extends rs) as (t & fs & ->); [|eexists _, _; split; [done|]].
  - reflexivity.
  - reflexivity.
Qed.

(** ** The renderers and the shared table *)

Lemma shared_table_at h fs l rows :
  h !! l = Some (ODataFrame (read_csv rows)) ->
  shared_table {| heap := h; files := fs; df := Some l |} = Some rows.
Proof.
  intros H. unfold shared_table. cbn. rewrite H. cbn.
  apply frame_rows_read_csv.
Qed.

(** C9. Whatever was rendered before, a call to any of the three renderers
    leaves [df] bound to the same object, leaves every object that existed
    before the call as it was (the store before the call is a prefix of the
    store after it: the renderers write to the copies and figures they
    create), and so leaves the filtered table, dates and values, unchanged. *)
Theorem renderers_leave_filtered_table_unchanged
    (csv : list Row) (rs : list Renderer) (r : Renderer) :
  let w := session csv rs in
  let w' := (call r w).1 in
  df w' = df w
  /\ heap w `prefix_of` heap w'
  /\ (exists l d, df w = Some l /\ heap w !! l = Some (ODataFrame d)
                 /\ heap w' !! l = Some (ODataFrame d))
  /\ shared_table w = FilteredTable csv
  /\ shared_table w' = FilteredTable csv.
Proof.
  intros w w'. subst w w'.
  destruct (session_world csv rs) as (h & fs & -> & H).
  destruct (call_extends r h fs 1%nat _ H) as (t & fs' & ->).
  rewrite FilteredTable_kept. cbn [df heap].
  split; [done|]. split; [by exists t|]. split.
  - exists 1%nat, (read_csv (kept csv)). split; [done|]. split; [done|].
    by apply lookup_app_l_Some.
  - split; apply shared_table_at; [done|]. by apply lookup_app_l_Some.
Qed.

(** C10. A renderer that returns returns a reference, never [None], to a
    figure created during the call, and that figure is what the call has
    written to the renderer's output file.  The line renderer always
    returns; a call that raises is a call of the bar or box renderer on an
    empty filtered table (where the bar renderer has nothing to plot), so on
    a filtered table with a row every renderer returns. *)
Theorem renderers_return_saved_figure
    (csv : list Row) (rs : list Renderer) (r : Renderer) :
  match call r (session csv rs) with
  | (w', Ret v) =>
      exists l f, v = PyRef l
        /\ heap (session csv rs) !! l = None
        /\ heap w' !! l = Some (OFigure f)
        /\ files w' !! output_file r = Some f
  | (_, Raise _) => r <> LinePlot /\ kept csv = []
  end.
Proof.
  destruct (session_world csv rs) as (h & fs & -> & H). cbn [heap].
  destruct r; cbn [call output_file].
  - rewrite (draw_line_plot_run _ _ _ _ H).
    eexists _, _. split; [done|]. cbn [heap files].
    split; [by apply lookup_ge_None|]. split; [apply lookup_snoc|].
    apply lookup_insert_eq.
  - rewrite (draw_bar_plot_run _ _ _ _ H).
    destruct (grid_columns (bar_grid (kept csv))) eqn:Hc.
    + split; [done|]. by apply bar_grid_columns_nil.
    + eexists _, _. split; [done|]. cbn [heap files].
      split; [apply lookup_ge_None; lia|].
      split; [apply lookup_snoc2|apply lookup_insert_eq].
  - rewrite (draw_box_plot_run _ _ _ _ H).
    destruct (kept csv) eqn:Hk;
      (eexists _, _; split; [done|]; cbn [heap files];
       split; [apply lookup_ge_None; lia|];
       split; [apply lookup_snoc2|apply lookup_insert_eq]).
Qed.

(** ** The figures *)

Lemma renders_line (csv : list Row) (rs : list Renderer) :
  renders draw_line_plot (session csv rs) "line_plot.png" (line_figure (kept csv)).
Proof.
  destruct (session_world csv rs) as (h & fs & -> & H).
  unfold renders. rewrite (draw_line_plot_run _ _ _ _ H).
  eexists _, _. split; [done|]. cbn [heap files].
  split; [apply lookup_snoc|apply lookup_insert_eq].
Qed.

Lemma renders_bar (csv : list Row) (rs : list Renderer) :
  kept csv <> [] ->
  renders draw_bar_plot (session csv rs) "bar_plot.png"
          (bar_figure (bar_grid (kept csv))).
Proof.
  intros Hne. destruct (session_world csv rs) as (h & fs & -> & H).
  unfold renders. rewrite (draw_bar_plot_run _ _ _ _ H).
  destruct (grid_columns (bar_grid (kept csv))) eqn:Hc.
  { by apply bar_grid_columns_nil in Hc. }
  eexists _, _. split; [done|]. cbn [heap files].
  split; [apply lookup_snoc2|apply lookup_insert_eq].
Qed.

Lemma renders_box (csv : list Row) (rs : list Renderer) :
  kept csv <> [] ->
  renders draw_box_plot (session csv rs) "box_plot.png" (box_figure (kept csv)).
Proof.
  intros Hne. destruct (session_world csv rs) as (h & fs & -> & H).
  unfold renders. rewrite (draw_box_plot_run _ _ _ _ H).
  destruct (kept csv) eqn:Hk; [done|].
  eexists _, _. split; [done|]. cbn [heap files].
  split; [apply lookup_snoc2|apply lookup_insert_eq].
Qed.

Lemma filter_imap_all {A B : Type} (p : B -> bool) (l : list A) (f : nat -> A -> B) :
  (forall i x, p (f i x) = true) -> List.filter p (imap f l) = imap f l.
Proof.
  revert f. induction l as [|x l IH]; intros f Hp; [done|].
  cbn. rewrite Hp. f_equal. apply IH. intros i y. apply Hp.
Qed.

Lemma bar_axes_legend (g : Grid) :
  legend (bar_axes g)
  = Some {| legend_title := "Months";
            legend_entries := zip (bar_containers g) months |}.
Proof.
  unfold bar_axes, ax_legend. cbn -[months bar_containers zip].
  unfold legend_handles. cbn -[months bar_containers zip].
  unfold bar_containers. by rewrite filter_imap_all.
Qed.

Lemma snd_zip_take {A B : Type} (l : list A) (k : list B) :
  map snd (zip l k) = take (length l) k.
Proof.
  revert k. induction l as [|x l IH]; intros [|y k]; cbn; try done.
  by rewrite IH.
Qed.

(** The labels of the bar legend: as many month names, from January on, as
    the grid has columns. *)
Lemma bar_legend_labels (g : Grid) :
  exists lg, legend (bar_axes g) = Some lg
    /\ legend_title lg = "Months"
    /\ map snd (legend_entries lg) = take (length (grid_columns g)) months.
Proof.
  eexists. split; [apply bar_axes_legend|]. split; [done|].
  cbn [legend_entries]. rewrite snd_zip_take. unfold bar_containers.
  by rewrite length_imap.
Qed.

(** C8. The texts and file names are the fixed ones: the line plot has the
    title "Daily freeCodeCamp Forum Page Views 5/2016-12/2019", the axis
    labels "Date" and "Page Views" and goes to line_plot.png; when the
    filtered table has a row, so that the other two renderers have something
    to plot, the bar plot has the axis labels "Years" and "Average Page
    Views", the legend title "Months" and goes to bar_plot.png, and the two
    box plots have the titles "Year-wise Box Plot (Trend)" and "Month-wise
    Box Plot (Seasonality)", the axis labels "Year"/"Page Views" and
    "Month"/"Page Views" and go to box_plot.png. *)
Theorem fixed_texts_and_file_names (csv : list Row) (rs : list Renderer) :
  let w := session csv rs in
  (exists f a, renders draw_line_plot w "line_plot.png" f
     /\ axes f = [a]
     /\ title a = "Daily freeCodeCamp Forum Page Views 5/2016-12/2019"
     /\ xlabel a = "Date" /\ ylabel a = "Page Views")
  /\ (kept csv <> [] ->
      (exists f a lg, renders draw_bar_plot w "bar_plot.png" f
         /\ axes f = [a]
         /\ xlabel a = "Years" /\ ylabel a = "Average Page Views"
         /\ legend a = Some lg /\ legend_title lg = "Months")
      /\ (exists f a1 a2, renders draw_box_plot w "box_plot.png" f
            /\ axes f = [a1; a2]
            /\ title a1 = "Year-wise Box Plot (Trend)"
            /\ xlabel a1 = "Year" /\ ylabel a1 = "Page Views"
            /\ title a2 = "Month-wise Box Plot (Seasonality)"
            /\ xlabel a2 = "Month" /\ ylabel a2 = "Page Views")).
Proof.
  intros w. subst w. split.
  - eexists _, _. split; [apply renders_line|]. by cbn.
  - intros Hne. split.
    + eexists _, _, _. split; [by apply renders_bar|].
      split; [done|]. split; [done|]. split; [done|].
      split; [apply bar_axes_legend|done].
    + eexists _, _, _. split; [by apply renders_box|]. by cbn.
Qed.

Lemma fixed_texts_and_file_names_witness :
  kept scenario <> [] /\
  (exists f a lg, renders draw_bar_plot (session scenario []) "bar_plot.png" f
     /\ axes f = [a]
     /\ xlabel a = "Years" /\ ylabel a = "Average Page Views"
     /\ legend a = Some lg /\ legend_title lg = "Months")
  /\ (exists f a1 a2, renders draw_box_plot (session scenario []) "box_plot.png" f
        /\ axes f = [a1; a2]
        /\ title a1 = "Year-wise Box Plot (Trend)"
        /\ xlabel a1 = "Year" /\ ylabel a1 = "Page Views"
        /\ title a2 = "Month-wise Box Plot (Seasonality)"
        /\ xlabel a2 = "Month" /\ ylabel a2 = "Page Views").
Proof.
  assert (Hne : kept scenario <> []) by (vm_compute; discriminate).
  split; [exact Hne|].
  exact (proj2 (fixed_texts_and_file_names scenario []) Hne).
Defined.

(** ** Box plot groups *)

Lemma group_values_month (name : string) (rows : list Row) :
  group_values (LStr name) (map LStr (map strftime_b (map date rows)))
               (map value rows)
  = map value (filter (fun r => strftime_b (date r) = name) rows).
Proof.
  unfold group_values. induction rows as [|r rows IH]; [done|].
  cbn [map zip zip_with List.filter fst]. rewrite filter_cons.
  destruct (decide (strftime_b (date r) = name)) as [->|Hne].
  - rewrite bool_decide_eq_true_2 by done. cbn. by rewrite IH.
  - rewrite bool_decide_eq_false_2 by congruence. exact IH.
Qed.

(** C4, as stated, fails: on a table whose two rows are both filtered out
    the box renderer still returns and saves its figure, and the month-wise
    plot in it has no group and no tick at all, so its groups are not the
    twelve months. *)
Lemma month_boxes_of_empty_table :
  FilteredTable two_rows = Some []
  /\ (exists f a1 a2,
        renders draw_box_plot (loaded two_rows) "box_plot.png" f
        /\ axes f = [a1; a2] /\ artists a2 = [] /\ xticklabels a2 = [])
  /\ ~ (exists f a1 a2 groups,
          renders draw_box_plot (loaded two_rows) "box_plot.png" f
          /\ axes f = [a1; a2]
          /\ artists a2 = [BoxPlot groups]
          /\ map fst groups
             = map LStr ["Jan"; "Feb"; "Mar"; "Apr"; "May"; "Jun";
                         "Jul"; "Aug"; "Sep"; "Oct"; "Nov"; "Dec"]).
Proof.
  assert (Hk : kept two_rows = []) by reflexivity.
  assert (Hrun : draw_box_plot (loaded two_rows)
                 = ({| heap := heap (loaded two_rows)
                                 ++ [ODataFrame (box_frame []); OFigure blank_box_figure];
                       files := <["box_plot.png" := blank_box_figure]> ∅;
                       df := Some 1%nat |}, Ret (PyRef 3%nat))).
  { rewrite loaded_eq.
    rewrite (draw_box_plot_run _ _ 1%nat (kept two_rows)) by done.
    rewrite Hk. cbn [heap]. by rewrite <- app_assoc. }
  split; [by rewrite FilteredTable_kept|]. split.
  - exists blank_box_figure. eexists _, _. split; [|by cbn].
    unfold renders. rewrite Hrun. eexists _, _. split; [done|].
    cbn [heap files]. split; [by rewrite loaded_eq|apply lookup_insert_eq].
  - intros (f & a1 & a2 & groups & (w' & l & Hr & _ & Hf) & Hax & Hart & _).
    rewrite Hrun in Hr. inversion Hr; subst w' l. cbn [files] in Hf.
    rewrite lookup_insert_eq in Hf. inversion Hf; subst f.
    inversion Hax; subst a1 a2. discriminate Hart.
Qed.

(** C4, amended. Whenever the filtered table has a row, the month-wise box
    plot has its twelve groups in the order Jan, Feb, ..., Dec, ticks
    included, whichever months the rows are in; the group of a month holds
    the values of the rows of that month, and is empty when there are
    none. *)
Theorem month_boxes_in_calendar_order (csv : list Row) (rs : list Renderer) :
  kept csv <> [] ->
  exists f a1 a2 groups,
    renders draw_box_plot (session csv rs) "box_plot.png" f
    /\ axes f = [a1; a2]
    /\ artists a2 = [BoxPlot groups]
    /\ map fst groups
       = map LStr ["Jan"; "Feb"; "Mar"; "Apr"; "May"; "Jun";
                   "Jul"; "Aug"; "Sep"; "Oct"; "Nov"; "Dec"]
    /\ xticklabels a2 = map fst groups
    /\ groups
       = map (fun name =>
                (LStr name,
                 map value
                   (filter (fun r => strftime_b (date r) = name) (kept csv))))
             ["Jan"; "Feb"; "Mar"; "Apr"; "May"; "Jun";
              "Jul"; "Aug"; "Sep"; "Oct"; "Nov"; "Dec"].
Proof.
  intros Hne. eexists _, _, _, _. split; [by apply renders_box|].
  split; [reflexivity|]. split; [reflexivity|].
  split; [reflexivity|]. split; [reflexivity|].
  unfold box_groups, month_order. cbn [map].
  by rewrite !group_values_month.
Qed.

Lemma month_boxes_in_calendar_order_witness :
  kept may_only <> [] /\
  exists f a1 a2 groups,
    renders draw_box_plot (session may_only [BarPlot]) "box_plot.png" f
    /\ axes f = [a1; a2]
    /\ artists a2 = [BoxPlot groups]
    /\ map fst groups
       = map LStr ["Jan"; "Feb"; "Mar"; "Apr"; "May"; "Jun";
                   "Jul"; "Aug"; "Sep"; "Oct"; "Nov"; "Dec"]
    /\ xticklabels a2 = map fst groups
    /\ groups
       = map (fun name =>
                (LStr name,
                 map value
                   (filter (fun r => strftime_b (date r) = name) (kept may_only))))
             ["Jan"; "Feb"; "Mar"; "Apr"; "May"; "Jun";
              "Jul"; "Aug"; "Sep"; "Oct"; "Nov"; "Dec"].
Proof.
  assert (Hne : kept may_only <> []) by (vm_compute; discriminate).
  split; [exact Hne|].
  exact (month_boxes_in_calendar_order may_only [BarPlot] Hne).
Defined.

(** ** The bar legend *)

(** C5, at a table whose rows are all in May: the filtered table is the one
    row, the grid has the single column 5, and the legend of the bar plot
    has one entry, which labels the bars of May "January". *)
Theorem bar_legend_of_may_only_table :
  FilteredTable may_only = Some may_only
  /\ exists f a lg,
       renders draw_bar_plot (loaded may_only) "bar_plot.png" f
       /\ axes f = [a]
       /\ legend a = Some lg
       /\ legend_entries lg = [(BarContainer "5" [(1201 # 1)%Q], "January")].
Proof.
  split; [by rewrite FilteredTable_kept|].
  eexists _, _, _. split.
  - apply (renders_bar may_only []). vm_compute. discriminate.
  - split; [reflexivity|]. split; [apply bar_axes_legend|].
    vm_compute. reflexivity.
Qed.

(** X12. The legend of the bar plot in general: the bar containers of the
    grid's columns paired in order with the first month names, so that the
    legend shows as many names, from January on, as there are distinct months
    in the filtered table. *)
Lemma bar_legend_in_general (csv : list Row) (rs : list Renderer) :
  kept csv <> [] ->
  exists f a lg,
    renders draw_bar_plot (session csv rs) "bar_plot.png" f
    /\ axes f = [a]
    /\ legend a = Some lg
    /\ map snd (legend_entries lg)
       = take (length (filter (fun m => m ∈ map month (map date (kept csv)))
                              (seqZ 1 12)))
              months.
Proof.
  intros Hne.
  destruct (bar_legend_labels (bar_grid (kept csv))) as (lg & Hlg & _ & Hl).
  eexists _, _, lg. split; [by apply renders_bar|].
  split; [reflexivity|]. split; [exact Hlg|].
  by rewrite Hl, bar_grid_columns_eq.
Qed.

(** ** Row order *)

Lemma merge_sort_perm (xs xs' : list Z) :
  xs ≡ₚ xs' -> merge_sort Z.le xs = merge_sort Z.le xs'.
Proof.
  intros Hp. apply (StronglySorted_unique Z.le).
  - apply StronglySorted_merge_sort; apply _.
  - apply StronglySorted_merge_sort; apply _.
  - by rewrite !merge_sort_Permutation.
Qed.

Lemma quantile_perm (q : Q) (xs xs' : list Z) :
  xs ≡ₚ xs' -> quantile q xs = quantile q xs'.
Proof.
  intros Hp. unfold quantile.
  destruct xs as [|x xs], xs' as [|x' xs'].
  - done.
  - by apply Permutation_nil_cons in Hp.
  - symmetry in Hp. by apply Permutation_nil_cons in Hp.
  - rewrite (merge_sort_perm _ _ Hp), (Permutation_length Hp). reflexivity.
Qed.

Lemma bool_filter_perm {A : Type} (p : A -> bool) (l l' : list A) :
  l ≡ₚ l' -> List.filter p l ≡ₚ List.filter p l'.
Proof.
  induction 1 as [|x l l' _ IH|x y l|l l' l'' _ IH1 _ IH2]; cbn.
  - done.
  - destruct (p x); by rewrite IH.
  - destruct (p x), (p y); try done. apply perm_swap.
  - by rewrite IH1.
Qed.

Lemma kept_perm (csv csv' : list Row) : csv ≡ₚ csv' -> kept csv ≡ₚ kept csv'.
Proof.
  intros Hp. unfold kept.
  assert (Hv : map value csv ≡ₚ map value csv') by by apply Permutation_map.
  rewrite !(quantile_perm _ _ _ Hv). by apply bool_filter_perm.
Qed.

Lemma bar_grid_columns_perm (rows rows' : list Row) :
  rows ≡ₚ rows' -> grid_columns (bar_grid rows) = grid_columns (bar_grid rows').
Proof.
  intros Hp. rewrite !bar_grid_columns_eq. apply list_filter_iff. intros m.
  assert (Hm : map month (map date rows) ≡ₚ map month (map date rows'))
    by by do 2 apply Permutation_map.
  by rewrite Hm.
Qed.

Lemma monthly_average_grid_session (csv : list Row) (rs : list Renderer) :
  exists w', monthly_average_grid (session csv rs) = (w', Ret (bar_grid (kept csv))).
Proof.
  destruct (session_world csv rs) as (h & fs & -> & H).
  rewrite (monthly_average_grid_run _ _ _ _ H). by eexists.
Qed.

(** ** The monthly grid *)

(** X16. The grid [draw_bar_plot] derives from the filtered table has one row
    per distinct year; the cell of a year and month that have rows is the
    arithmetic mean of the values of these rows; the columns are the months
    that occur, each once, in the order of the month numbers 1 to 12, hence
    exactly 1, 2, ..., 12 when every month occurs; and the columns are the
    same for every order of the rows of the input. *)
Theorem monthly_grid_rows_cells_columns (csv : list Row) (rs : list Renderer) :
  exists w' g,
    monthly_average_grid (session csv rs) = (w', Ret g)
    /\ NoDup (grid_index g)
    /\ (forall y, y ∈ grid_index g <-> y ∈ map year (map date (kept csv)))
    /\ (forall y m, (y, m) ∈ map row_key (kept csv) ->
          grid_cell g y m = Some (Some (mean (group (kept csv) y m))))
    /\ grid_columns g
       = filter (fun m => m ∈ map month (map date (kept csv))) (seqZ 1 12)
    /\ (seqZ 1 12 ⊆ map month (map date (kept csv)) ->
        grid_columns g = [1; 2; 3; 4; 5; 6; 7; 8; 9; 10; 11; 12])
    /\ (forall csv' rs', csv ≡ₚ csv' ->
          exists w'' g',
            monthly_average_grid (session csv' rs') = (w'', Ret g')
            /\ grid_columns g' = grid_columns g).
Proof.
  destruct (monthly_average_grid_session csv rs) as (w' & Hrun).
  exists w', (bar_grid (kept csv)). split; [exact Hrun|].
  split; [apply sorted_lt_NoDup, sorted_unique_sorted|].
  split; [apply bar_grid_index_elem|]. split; [|split; [|split]].
  - intros y m Hk. rewrite bar_grid_cell.
    assert (Hy : y ∈ map year (map date (kept csv))).
    { apply elem_of_map_iff in Hk as (r & Hr & Hin).
      apply elem_of_map_iff. exists (date r). split; [by inversion Hr|].
      apply elem_of_map_iff. by exists r. }
    assert (Hm : m ∈ map month (map date (kept csv))).
    { apply elem_of_map_iff in Hk as (r & Hr & Hin).
      apply elem_of_map_iff. exists (date r). split; [by inversion Hr|].
      apply elem_of_map_iff. by exists r. }
    rewrite bool_decide_eq_true_2 by done.
    destruct (group (kept csv) y m) eqn:E; [|done].
    by apply group_nil in E.
  - apply bar_grid_columns_eq.
  - intros Hall. rewrite bar_grid_columns_eq.
    change [1; 2; 3; 4; 5; 6; 7; 8; 9; 10; 11; 12] with (seqZ 1 12).
    generalize (seqZ 1 12) Hall. intros l Hl.
    induction l as [|x l IH]; [done|].
    rewrite filter_cons_True by (apply Hl; left).
    f_equal. apply IH. intros z Hz. apply Hl. by right.
  - intros csv' rs' Hp.
    destruct (monthly_average_grid_session csv' rs') as (w'' & Hrun').
    exists w'', (bar_grid (kept csv')). split; [exact Hrun'|].
    symmetry. by apply bar_grid_columns_perm, kept_perm.
Qed.

Lemma monthly_grid_rows_cells_columns_witness :
  ((2016, 5) ∈ map row_key (kept full_year)
   /\ seqZ 1 12 ⊆ map month (map date (kept full_year))
   /\ full_year ≡ₚ rev full_year)
  /\ exists w' g,
       monthly_average_grid (session full_year []) = (w', Ret g)
       /\ grid_cell g 2016 5 = Some (Some (mean (group (kept full_year) 2016 5)))
       /\ grid_columns g = [1; 2; 3; 4; 5; 6; 7; 8; 9; 10; 11; 12]
       /\ exists w'' g',
            monthly_average_grid (session (rev full_year) [BarPlot]) = (w'', Ret g')
            /\ grid_columns g' = grid_columns g.
Proof.
  assert (Hk : (2016, 5) ∈ map row_key (kept full_year)).
  { vm_compute. do 4 right. left. }
  assert (Hall : seqZ 1 12 ⊆ map month (map date (kept full_year))).
  { vm_compute. intros m Hm. exact Hm. }
  assert (Hp : full_year ≡ₚ rev full_year) by apply Permutation_rev.
  split; [by repeat split|].
  destruct (monthly_grid_rows_cells_columns full_year [])
    as (w' & g & Hrun & _ & _ & Hcell & _ & Hcols & Hperm).
  exists w', g. split; [exact Hrun|]. split; [by apply Hcell|].
  split; [by apply Hcols|]. by apply Hperm.
Defined.

(** C3, at a table whose rows are all in May: the filtered table is the one
    row, the grid has the one row 2016 and its cell for May is the mean of
    the group, but the grid has the single column 5: its columns are not
    1, 2, ..., 12. *)
Theorem monthly_grid_of_may_only_table :
  FilteredTable may_only = Some may_only
  /\ exists w' g,
       monthly_average_grid (loaded may_only) = (w', Ret g)
       /\ grid_index g = [2016]
       /\ grid_cell g 2016 5 = Some (Some (mean [1201]))
       /\ grid_columns g = [5]
       /\ grid_columns g <> [1; 2; 3; 4; 5; 6; 7; 8; 9; 10; 11; 12].
Proof.
  split; [by rewrite FilteredTable_kept|].
  destruct (monthly_average_grid_session may_only []) as (w' & Hrun).
  exists w', (bar_grid (kept may_only)). split; [exact Hrun|].
  split; [reflexivity|]. split; [reflexivity|]. split; [reflexivity|].
  discriminate.
Qed.

(** C7. A year and month without rows in the filtered table has no number in
    the grid: inside the grid's rows and columns its cell is NaN, elsewhere
    there is no cell; in neither case is the cell zero. *)
Theorem missing_month_is_not_zero (csv : list Row) (rs : list Renderer) :
  exists w' g,
    monthly_average_grid (session csv rs) = (w', Ret g)
    /\ forall y m,
         (y, m) ∉ map row_key (kept csv) ->
         (if bool_decide (y ∈ grid_index g /\ m ∈ grid_columns g)
          then grid_cell g y m = Some None
          else grid_cell g y m = None)
         /\ forall q : Q, grid_cell g y m <> Some (Some q).
Proof.
  destruct (monthly_average_grid_session csv rs) as (w' & Hrun).
  exists w', (bar_grid (kept csv)). split; [exact Hrun|].
  intros y m Hk. apply group_nil in Hk.
  rewrite bar_grid_cell, Hk.
  rewrite (bool_decide_ext _ (y ∈ map year (map date (kept csv))
                              /\ m ∈ map month (map date (kept csv))))
    by by rewrite bar_grid_index_elem, bar_grid_columns_elem.
  case_bool_decide; split; done.
Qed.

Lemma missing_month_is_not_zero_witness :
((2016, 6) ∉ map row_key (kept two_months))
  /\ exists w' g,
       monthly_average_grid (session two_months []) = (w', Ret g)
       /\ grid_cell g 2016 6 = Some None
       /\ grid_cell g 2016 6 <> Some (Some 0%Q).
Proof.
  assert (Hk : (2016, 6) ∉ map row_key (kept two_months)).
  { vm_compute. intros H. repeat (inversion H as [|? ? ? H']; clear H; rename H' into H). }
  split; [exact Hk|].
  destruct (missing_month_is_not_zero two_months []) as (w' & g & Hrun & Hcell).
  exists w', g. split; [exact Hrun|].
  destruct (Hcell 2016 6 Hk) as [Hnan Hnum].
  split; [|apply Hnum].
  assert (Hg : g = bar_grid (kept two_months)).
  { destruct (monthly_average_grid_session two_months []) as (w'' & Hrun').
    rewrite Hrun in Hrun'. by inversion Hrun'. }
  subst g. exact Hnan.
Defined.

(** ** Interpolation between sorted values *)

Lemma quantile_interpolate (q : Q) (xs : list Z) :
  xs <> [] ->
  quantile q xs
  = Some (interpolate (merge_sort Z.le xs)
                      (q * inject_Z (Z.of_nat (length xs) - 1))).
Proof. by destruct xs. Qed.

Lemma convex_between (a b f lo hi : Q) :
  (lo <= a <= hi -> lo <= b <= hi -> 0 <= f -> f <= 1 ->
   lo <= a + (b - a) * f <= hi)%Q.
Proof.
  intros [? ?] [? ?] ? ?.
  assert (0 <= (a - lo) * (1 - f))%Q by (apply Qmult_le_0_compat; lra).
  assert (0 <= (b - lo) * f)%Q by (apply Qmult_le_0_compat; lra).
  assert (0 <= (hi - a) * (1 - f))%Q by (apply Qmult_le_0_compat; lra).
  assert (0 <= (hi - b) * f)%Q by (apply Qmult_le_0_compat; lra).
  split; lra.
Qed.

Lemma convex_above (a b f v : Q) :
  (v < a -> v < b -> 0 <= f -> f <= 1 -> v < a + (b - a) * f)%Q.
Proof.
  intros.
  assert (0 <= (a - v) * (1 - f))%Q by (apply Qmult_le_0_compat; lra).
  assert (0 <= (b - v) * f)%Q by (apply Qmult_le_0_compat; lra).
  destruct (Qlt_le_dec f (1 # 2)).
  - assert (0 < (a - v) * (1 - f))%Q by (apply Qmult_lt_0_compat; lra). lra.
  - assert (0 < (b - v) * f)%Q by (apply Qmult_lt_0_compat; lra). lra.
Qed.

Lemma convex_below (a b f v : Q) :
  (a < v -> b <= v -> 0 <= f -> f < 1 -> a + (b - a) * f < v)%Q.
Proof.
  intros.
  assert (0 < (v - a) * (1 - f))%Q by (apply Qmult_lt_0_compat; lra).
  assert (0 <= (v - b) * f)%Q by (apply Qmult_le_0_compat; lra).
  lra.
Qed.

(** The integer and fractional part of a position inside a list. *)
Lemma position_parts (pos : Q) (n : Z) :
  (0 <= pos)%Q -> (pos <= inject_Z n)%Q ->
  0 <= Qfloor pos <= n
  /\ (0 <= pos - inject_Z (Qfloor pos))%Q
  /\ (pos - inject_Z (Qfloor pos) < 1)%Q.
Proof.
  intros H0 Hn. split; [split|split].
  - change 0 with (Qfloor 0). by apply Qfloor_resp_le.
  - rewrite <- (Qfloor_Z n). by apply Qfloor_resp_le.
  - pose proof (Qfloor_le pos). lra.
  - pose proof (Qlt_floor pos) as H. rewrite inject_Z_plus in H.
    change (inject_Z 1) with 1%Q in H. lra.
Qed.

Lemma nth_elem_of (s : list Z) (i : nat) (d : Z) :
  (i < length s)%nat -> nth i s d ∈ s.
Proof. intros H. apply list_elem_of_In. by apply nth_In. Qed.

Lemma interpolate_between (s : list Z) (pos : Q) (lo hi : Z) :
  (0 <= pos)%Q -> (pos <= inject_Z (Z.of_nat (length s) - 1))%Q ->
  s <> [] ->
  Forall (fun x => lo <= x <= hi) s ->
  (inject_Z lo <= interpolate s pos <= inject_Z hi)%Q.
Proof.
  intros H0 Hn Hs Hall. rewrite Forall_forall in Hall.
  assert (Hlen : (0 < length s)%nat) by (destruct s; [done|cbn; lia]).
  destruct (position_parts pos _ H0 Hn) as ([Hl0 Hl1] & Hf0 & Hf1).
  unfold interpolate.
  set (i := Z.to_nat (Qfloor pos)) in *.
  assert (Hi : (i < length s)%nat) by lia.
  assert (Ha : lo <= nth i s 0 <= hi) by by apply Hall, nth_elem_of.
  assert (Hb : lo <= nth (S i) s (nth i s 0) <= hi).
  { destruct (decide (S i < length s)%nat) as [Hlt|Hge].
    - by apply Hall, nth_elem_of.
    - rewrite nth_overflow by lia. exact Ha. }
  apply convex_between; [| |done|lra].
  - split; rewrite <- Zle_Qle; lia.
  - split; rewrite <- Zle_Qle; lia.
Qed.

Lemma merge_sort_Forall (P : Z -> Prop) (xs : list Z) :
  Forall P xs -> Forall P (merge_sort Z.le xs).
Proof. intros H. by rewrite merge_sort_Permutation. Qed.

Lemma quantile_position (q : Q) (n : nat) :
  (0 <= q)%Q -> (q <= 1)%Q -> (0 < n)%nat ->
  (0 <= q * inject_Z (Z.of_nat n - 1)
   /\ q * inject_Z (Z.of_nat n - 1) <= inject_Z (Z.of_nat n - 1))%Q.
Proof.
  intros H0 H1 Hn.
  assert (Hm : (0 <= inject_Z (Z.of_nat n - 1))%Q).
  { change 0%Q with (inject_Z 0). rewrite <- Zle_Qle. lia. }
  split.
  - by apply Qmult_le_0_compat.
  - assert (0 <= (1 - q) * inject_Z (Z.of_nat n - 1))%Q
      by (apply Qmult_le_0_compat; lra).
    lra.
Qed.

Lemma quantile_interpolate_between (q : Q) (xs : list Z) (lo hi : Z) :
  (0 <= q)%Q -> (q <= 1)%Q -> xs <> [] ->
  Forall (fun x => lo <= x <= hi) xs ->
  (inject_Z lo
   <= interpolate (merge_sort Z.le xs) (q * inject_Z (Z.of_nat (length xs) - 1))
   <= inject_Z hi)%Q.
Proof.
  intros H0 H1 Hne Hall.
  assert (Hlen : (0 < length xs)%nat) by (destruct xs; [done|cbn; lia]).
  destruct (quantile_position q (length xs) H0 H1 Hlen) as [Hp0 Hp1].
  apply interpolate_between.
  - done.
  - by rewrite (Permutation_length (merge_sort_Permutation Z.le xs)).
  - intros E. apply Hne. apply Permutation_nil_r.
    by rewrite <- E, merge_sort_Permutation.
  - by apply merge_sort_Forall.
Qed.

(** X1. A quantile of a non-empty series, at a level between 0 and 1, is a
    number, and it lies between any two bounds of the values. *)
Theorem quantile_within_range (q : Q) (xs : list Z) (lo hi : Z) :
  (0 <= q)%Q -> (q <= 1)%Q -> xs <> [] ->
  Forall (fun x => lo <= x <= hi) xs ->
  exists t, quantile q xs = Some t /\ (inject_Z lo <= t <= inject_Z hi)%Q.
Proof.
  intros H0 H1 Hne Hall. eexists. split.
  - by apply quantile_interpolate.
  - by apply quantile_interpolate_between.
Qed.

Lemma quantile_within_range_witness :
  exists t, quantile (25 # 1000) [1201; 2329; 1716] = Some t
            /\ (inject_Z 1201 <= t <= inject_Z 2329)%Q.
Proof.
  apply (quantile_within_range (25 # 1000) [1201; 2329; 1716] 1201 2329).
  - vm_compute. discriminate.
  - vm_compute. discriminate.
  - discriminate.
  - repeat constructor; lia.
Defined.

(** ** Tables the filter keeps whole, and rows it always drops *)

Lemma filter_all_true {A : Type} (p : A -> bool) (l : list A) :
  Forall (fun x => p x = true) l -> List.filter p l = l.
Proof. induction 1 as [|x l Hx _ IH]; cbn; [done|]. by rewrite Hx, IH. Qed.

Lemma level_025 : (0 <= 25 # 1000)%Q /\ (25 # 1000 <= 1)%Q.
Proof. split; vm_compute; discriminate. Qed.

Lemma level_975 : (0 <= 975 # 1000)%Q /\ (975 # 1000 <= 1)%Q.
Proof. split; vm_compute; discriminate. Qed.

(** X2. A table whose values are all the same goes through the filter
    unchanged: both quantiles are that value.  In particular a table with a
    single row is kept. *)
Theorem constant_table_is_kept (csv : list Row) (v : Z) :
  Forall (fun r => value r = v) csv -> FilteredTable csv = Some csv.
Proof.
  intros Hall. rewrite FilteredTable_kept. f_equal. unfold kept.
  destruct csv as [|r0 csv0]; [done|]. set (csv := r0 :: csv0) in *.
  assert (Hne : map value csv <> []) by done.
  assert (Hv : Forall (fun x => v <= x <= v) (map value csv)).
  { apply Forall_fmap. eapply Forall_impl; [exact Hall|]. cbn. lia. }
  rewrite !quantile_interpolate by done.
  pose proof (quantile_interpolate_between _ _ v v (proj1 level_025)
                (proj2 level_025) Hne Hv) as [Hl1 Hl2].
  pose proof (quantile_interpolate_between _ _ v v (proj1 level_975)
                (proj2 level_975) Hne Hv) as [Hh1 Hh2].
  apply filter_all_true. eapply Forall_impl; [exact Hall|].
  intros r ->. cbn. by rewrite andb_true_iff, !Qle_bool_iff.
Qed.

Lemma constant_table_is_kept_witness : FilteredTable full_year = Some full_year.
Proof.
  apply (constant_table_is_kept full_year 100).
  repeat constructor.
Defined.

Lemma merge_sort_min (v : Z) (others xs : list Z) :
  xs ≡ₚ v :: others -> Forall (fun x => v < x) others ->
  merge_sort Z.le xs = v :: merge_sort Z.le others.
Proof.
  intros Hp Hall. apply (StronglySorted_unique Z.le).
  - apply StronglySorted_merge_sort; apply _.
  - apply StronglySorted_cons. split.
    + apply merge_sort_Forall. eapply Forall_impl; [exact Hall|]. cbn. lia.
    + apply StronglySorted_merge_sort; apply _.
  - by rewrite !merge_sort_Permutation.
Qed.

Lemma merge_sort_max (v : Z) (others xs : list Z) :
  xs ≡ₚ v :: others -> Forall (fun x => x < v) others ->
  merge_sort Z.le xs = merge_sort Z.le others ++ [v].
Proof.
  intros Hp Hall. apply (StronglySorted_unique Z.le).
  - apply StronglySorted_merge_sort; apply _.
  - apply StronglySorted_app. split; [|split].
    + intros x1 x2 Hx1 Hx2. apply list_elem_of_singleton in Hx2 as ->.
      rewrite merge_sort_Permutation in Hx1.
      rewrite Forall_forall in Hall. apply Hall in Hx1. lia.
    + apply StronglySorted_merge_sort; apply _.
    + repeat constructor.
  - rewrite !merge_sort_Permutation, Hp. by rewrite Permutation_cons_append.
Qed.

Lemma interpolate_above_head (v : Z) (rest : list Z) (pos : Q) :
  rest <> [] -> Forall (fun x => v < x) rest ->
  (0 < pos)%Q -> (pos <= inject_Z (Z.of_nat (length rest)))%Q ->
  (inject_Z v < interpolate (v :: rest) pos)%Q.
Proof.
  intros Hne Hall H0 Hn. rewrite Forall_forall in Hall.
  assert (Hlen : (0 < length rest)%nat) by (destruct rest; [done|cbn; lia]).
  assert (H0' : (0 <= pos)%Q) by lra.
  destruct (position_parts pos _ H0' Hn) as ([Hl0 Hl1] & Hf0 & Hf1).
  unfold interpolate.
  destruct (Z.to_nat (Qfloor pos)) as [|j] eqn:Ej.
  - assert (E0 : Qfloor pos = 0) by lia. rewrite E0. cbn [nth].
    assert (Hb : v < nth 0 rest v) by by apply Hall, nth_elem_of.
    assert (0 < (inject_Z (nth 0 rest v) - inject_Z v) * (pos - inject_Z 0))%Q.
    { apply Qmult_lt_0_compat.
      - rewrite Zlt_Qlt in Hb. lra.
      - change (inject_Z 0) with 0%Q. lra. }
    lra.
  - cbn [nth].
    assert (Hj : (j < length rest)%nat) by lia.
    assert (Ha : v < nth j rest 0) by by apply Hall, nth_elem_of.
    assert (Hb : v < nth (S j) rest (nth j rest 0)).
    { destruct (decide (S j < length rest)%nat).
      - by apply Hall, nth_elem_of.
      - by rewrite nth_overflow by lia. }
    apply convex_above; [by rewrite <- Zlt_Qlt|by rewrite <- Zlt_Qlt|done|lra].
Qed.

Lemma interpolate_below_last (v : Z) (front : list Z) (pos : Q) :
  Forall (fun x => x < v) front ->
  (0 <= pos)%Q -> (pos < inject_Z (Z.of_nat (length front)))%Q ->
  (interpolate (front ++ [v]) pos < inject_Z v)%Q.
Proof.
  intros Hall H0 Hn. rewrite Forall_forall in Hall.
  assert (Hn' : (pos <= inject_Z (Z.of_nat (length front)))%Q) by lra.
  destruct (position_parts pos _ H0 Hn') as ([Hl0 Hl1] & Hf0 & Hf1).
  assert (Hlt : Qfloor pos < Z.of_nat (length front)).
  { rewrite Zlt_Qlt. pose proof (Qfloor_le pos). lra. }
  unfold interpolate.
  set (i := Z.to_nat (Qfloor pos)) in *.
  assert (Hi : (i < length front)%nat) by lia.
  rewrite (app_nth1 front [v] 0 Hi).
  assert (Ha : nth i front 0 < v) by by apply Hall, nth_elem_of.
  assert (Hb : nth (S i) (front ++ [v]) (nth i front 0) <= v).
  { assert (Hin : nth (S i) (front ++ [v]) (nth i front 0) ∈ front ++ [v]).
    { apply nth_elem_of. rewrite length_app. cbn. lia. }
    apply elem_of_app in Hin as [Hin|Hin].
    - apply Hall in Hin. lia.
    - apply list_elem_of_singleton in Hin. lia. }
  apply convex_below; [by rewrite <- Zlt_Qlt|by rewrite <- Zle_Qle|done|done].
Qed.

Lemma values_around (l1 l2 : list Row) (r : Row) :
  map value (l1 ++ r :: l2) ≡ₚ value r :: map value (l1 ++ l2).
Proof. rewrite !map_app. cbn. by rewrite <- Permutation_middle. Qed.

(** The lower threshold of a table lies above a value that is strictly the
    smallest, the upper threshold below a value that is strictly the largest. *)
Lemma lower_quantile_above_strict_minimum (l1 l2 : list Row) (r : Row) :
  l1 ++ l2 <> [] ->
  Forall (fun r' => value r < value r') (l1 ++ l2) ->
  exists lo, quantile (25 # 1000) (map value (l1 ++ r :: l2)) = Some lo
             /\ (inject_Z (value r) < lo)%Q.
Proof.
  intros Hne Hall. eexists. split.
  { apply quantile_interpolate. by destruct l1. }
  assert (Hv : Forall (fun x => value r < x) (map value (l1 ++ l2)))
    by by apply Forall_fmap.
  rewrite (merge_sort_min _ _ _ (values_around l1 l2 r) Hv).
  assert (Hlen : length (map value (l1 ++ r :: l2)) = S (length (l1 ++ l2))).
  { rewrite length_map, !length_app. cbn. lia. }
  assert (Hpos : (0 < length (l1 ++ l2))%nat)
    by (destruct (l1 ++ l2); [done|cbn; lia]).
  rewrite Hlen.
  replace (Z.of_nat (S (length (l1 ++ l2))) - 1)
    with (Z.of_nat (length (l1 ++ l2))) by lia.
  assert (Hm : (0 < inject_Z (Z.of_nat (length (l1 ++ l2))))%Q).
  { change 0%Q with (inject_Z 0). rewrite <- Zlt_Qlt. lia. }
  apply interpolate_above_head.
  - intros E. apply (f_equal length) in E.
    rewrite (Permutation_length (merge_sort_Permutation Z.le _)), length_map in E.
    cbn in E. lia.
  - by apply merge_sort_Forall.
  - apply Qmult_lt_0_compat; [done|exact Hm].
  - rewrite (Permutation_length (merge_sort_Permutation Z.le _)), length_map.
    assert (0 <= (1 - (25 # 1000)) * inject_Z (Z.of_nat (length (l1 ++ l2))))%Q.
    { apply Qmult_le_0_compat; [done|lra]. }
    lra.
Qed.

Lemma upper_quantile_below_strict_maximum (l1 l2 : list Row) (r : Row) :
  l1 ++ l2 <> [] ->
  Forall (fun r' => value r' < value r) (l1 ++ l2) ->
  exists hi, quantile (975 # 1000) (map value (l1 ++ r :: l2)) = Some hi
             /\ (hi < inject_Z (value r))%Q.
Proof.
  intros Hne Hall. eexists. split.
  { apply quantile_interpolate. by destruct l1. }
  assert (Hv : Forall (fun x => x < value r) (map value (l1 ++ l2)))
    by by apply Forall_fmap.
  rewrite (merge_sort_max _ _ _ (values_around l1 l2 r) Hv).
  assert (Hlen : length (map value (l1 ++ r :: l2)) = S (length (l1 ++ l2))).
  { rewrite length_map, !length_app. cbn. lia. }
  assert (Hpos : (0 < length (l1 ++ l2))%nat)
    by (destruct (l1 ++ l2); [done|cbn; lia]).
  rewrite Hlen.
  replace (Z.of_nat (S (length (l1 ++ l2))) - 1)
    with (Z.of_nat (length (l1 ++ l2))) by lia.
  assert (Hm : (0 < inject_Z (Z.of_nat (length (l1 ++ l2))))%Q).
  { change 0%Q with (inject_Z 0). rewrite <- Zlt_Qlt. lia. }
  apply interpolate_below_last.
  - by apply merge_sort_Forall.
  - apply Qmult_le_0_compat; [done|lra].
  - rewrite (Permutation_length (merge_sort_Permutation Z.le _)), length_map.
    assert (0 < (1 - (975 # 1000)) * inject_Z (Z.of_nat (length (l1 ++ l2))))%Q.
    { apply Qmult_lt_0_compat; [done|lra]. }
    lra.
Qed.

Lemma in_band_below (lo : Q) (hi : option Q) (v : Z) :
  (inject_Z v < lo)%Q -> in_band (Some lo) hi v = false.
Proof.
  intros H. unfold in_band. destruct hi as [h|]; [|done].
  destruct (Qle_bool lo (inject_Z v)) eqn:E; [|done].
  apply Qle_bool_iff in E. lra.
Qed.

Lemma in_band_above (lo : option Q) (hi : Q) (v : Z) :
  (hi < inject_Z v)%Q -> in_band lo (Some hi) v = false.
Proof.
  intros H. unfold in_band. destruct lo as [l|]; [|done].
  destruct (Qle_bool (inject_Z v) hi) eqn:E; [|by rewrite andb_false_r].
  apply Qle_bool_iff in E. lra.
Qed.

Lemma bool_filter_app {A : Type} (p : A -> bool) (l1 l2 : list A) :
  List.filter p (l1 ++ l2) = List.filter p l1 ++ List.filter p l2.
Proof.
  induction l1 as [|x l1 IH]; cbn; [done|]. destruct (p x); cbn; by rewrite IH.
Qed.

(** A row outside the band leaves a filtered table made of the other rows. *)
Lemma kept_without (l1 l2 : list Row) (r : Row) :
  in_band (quantile (25 # 1000) (map value (l1 ++ r :: l2)))
          (quantile (975 # 1000) (map value (l1 ++ r :: l2))) (value r) = false ->
  sublist (kept (l1 ++ r :: l2)) (l1 ++ l2).
Proof.
  intros Hr. unfold kept. rewrite bool_filter_app. cbn [List.filter].
  rewrite Hr, <- bool_filter_app. apply filter_sublist.
Qed.

(** X3. In a table of at least two rows, with values of at most 31 bits, a
    row whose value is strictly the smallest is always dropped: the lower
    threshold lies strictly above its value, and the filtered table is made
    of the other rows. *)
Theorem strict_minimum_is_dropped (l1 l2 : list Row) (r : Row) :
  Forall (fun r' => small_count (value r')) (l1 ++ r :: l2) ->
  l1 ++ l2 <> [] ->
  Forall (fun r' => value r < value r') (l1 ++ l2) ->
  exists lo rows,
    quantile (25 # 1000) (map value (l1 ++ r :: l2)) = Some lo
    /\ (inject_Z (value r) < lo)%Q
    /\ FilteredTable (l1 ++ r :: l2) = Some rows
    /\ sublist rows (l1 ++ l2)
    /\ r ∉ rows.
Proof.
  intros _ Hne Hall.
  destruct (lower_quantile_above_strict_minimum l1 l2 r Hne Hall) as (lo & Hq & Hlt).
  exists lo, (kept (l1 ++ r :: l2)). split; [done|]. split; [done|].
  split; [apply FilteredTable_kept|].
  assert (Hs : sublist (kept (l1 ++ r :: l2)) (l1 ++ l2)).
  { apply kept_without. rewrite Hq. by apply in_band_below. }
  split; [done|]. intros Hin.
  apply (sublist_subseteq _ _ Hs) in Hin.
  rewrite Forall_forall in Hall. apply Hall in Hin. lia.
Qed.

Lemma strict_minimum_is_dropped_witness :
  exists lo rows,
    quantile (25 # 1000) (map value scenario) = Some lo
    /\ (inject_Z 1201 < lo)%Q
    /\ FilteredTable scenario = Some rows
    /\ {| date := {| year := 2016; calendar_month := May; day := 9 |};
          value := 1201 |} ∉ rows.
Proof.
  destruct (strict_minimum_is_dropped [] (drop 1 scenario)
              {| date := {| year := 2016; calendar_month := May; day := 9 |};
                 value := 1201 |})
    as (lo & rows & H1 & H2 & H3 & H4 & H5).
  - repeat constructor; unfold small_count; cbn; lia.
  - discriminate.
  - repeat constructor; cbn; lia.
  - by exists lo, rows.
Defined.

(** X4. In a table of at least two rows, with values of at most 31 bits, a
    row whose value is strictly the largest is always dropped: the upper
    threshold lies strictly below its value, and the filtered table is made
    of the other rows. *)
Theorem strict_maximum_is_dropped (l1 l2 : list Row) (r : Row) :
  Forall (fun r' => small_count (value r')) (l1 ++ r :: l2) ->
  l1 ++ l2 <> [] ->
  Forall (fun r' => value r' < value r) (l1 ++ l2) ->
  exists hi rows,
    quantile (975 # 1000) (map value (l1 ++ r :: l2)) = Some hi
    /\ (hi < inject_Z (value r))%Q
    /\ FilteredTable (l1 ++ r :: l2) = Some rows
    /\ sublist rows (l1 ++ l2)
    /\ r ∉ rows.
Proof.
  intros _ Hne Hall.
  destruct (upper_quantile_below_strict_maximum l1 l2 r Hne Hall) as (hi & Hq & Hlt).
  exists hi, (kept (l1 ++ r :: l2)). split; [done|]. split; [done|].
  split; [apply FilteredTable_kept|].
  assert (Hs : sublist (kept (l1 ++ r :: l2)) (l1 ++ l2)).
  { apply kept_without. rewrite Hq. by apply in_band_above. }
  split; [done|]. intros Hin.
  apply (sublist_subseteq _ _ Hs) in Hin.
  rewrite Forall_forall in Hall. apply Hall in Hin. lia.
Qed.

Lemma strict_maximum_is_dropped_witness :
  exists hi rows,
    quantile (975 # 1000) (map value scenario) = Some hi
    /\ (hi < inject_Z 2329)%Q
    /\ FilteredTable scenario = Some rows
    /\ {| date := {| year := 2016; calendar_month := May; day := 10 |};
          value := 2329 |} ∉ rows.
Proof.
  destruct (strict_maximum_is_dropped (take 1 scenario) (drop 2 scenario)
              {| date := {| year := 2016; calendar_month := May; day := 10 |};
                 value := 2329 |})
    as (hi & rows & H1 & H2 & H3 & H4 & H5).
  - repeat constructor; unfold small_count; cbn; lia.
  - discriminate.
  - repeat constructor; cbn; lia.
  - by exists hi, rows.
Defined.

Lemma kept_two_distinct (r1 r2 : Row) : value r1 <> value r2 -> kept [r1; r2] = [].
Proof.
  intros Hne.
  assert (Hsub : forall a b : Row, value a < value b ->
                   kept [a; b] = [] /\ kept [b; a] = []).
  { intros a b Hlt. split.
    - destruct (lower_quantile_above_strict_minimum [] [b] a) as (lo & Hlo & Hl);
        [done|by repeat constructor|].
      destruct (upper_quantile_below_strict_maximum [a] [] b) as (hi & Hhi & Hh);
        [done|by repeat constructor|].
      cbn [app] in Hlo, Hhi. unfold kept. cbn [List.filter].
      rewrite Hlo, Hhi.
      by rewrite (in_band_below lo (Some hi) (value a)), (in_band_above (Some lo) hi (value b)).
    - destruct (lower_quantile_above_strict_minimum [b] [] a) as (lo & Hlo & Hl);
        [done|by repeat constructor|].
      destruct (upper_quantile_below_strict_maximum [] [a] b) as (hi & Hhi & Hh);
        [done|by repeat constructor|].
      cbn [app] in Hlo, Hhi. unfold kept. cbn [List.filter].
      rewrite Hlo, Hhi.
      by rewrite (in_band_below lo (Some hi) (value a)), (in_band_above (Some lo) hi (value b)). }
  destruct (Z.lt_trichotomy (value r1) (value r2)) as [H|[H|H]]; [|done|].
  - exact (proj1 (Hsub _ _ H)).
  - exact (proj2 (Hsub _ _ H)).
Qed.

Lemma draw_bar_plot_empty (csv : list Row) (rs : list Renderer) :
  kept csv = [] ->
  exists w',
    draw_bar_plot (session csv rs) = (w', Raise (TypeError "no numeric data to plot"))
    /\ files w' = files (session csv rs).
Proof.
  intros Hk. destruct (session_world csv rs) as (h & fs & -> & H).
  rewrite (draw_bar_plot_run _ _ _ _ H), Hk. by eexists.
Qed.

(** X5. A table of two rows with different values, of at most 31 bits, is
    filtered down to nothing, each row being an extreme; [draw_bar_plot]
    then has nothing to plot: it raises and writes no file. *)
Theorem two_distinct_rows_leave_nothing (r1 r2 : Row) (rs : list Renderer) :
  small_count (value r1) -> small_count (value r2) ->
  value r1 <> value r2 ->
  FilteredTable [r1; r2] = Some []
  /\ exists w',
       draw_bar_plot (session [r1; r2] rs)
       = (w', Raise (TypeError "no numeric data to plot"))
       /\ files w' = files (session [r1; r2] rs).
Proof.
  intros _ _ Hne. pose proof (kept_two_distinct r1 r2 Hne) as Hk. split.
  - by rewrite FilteredTable_kept, Hk.
  - by apply draw_bar_plot_empty.
Qed.

Lemma two_distinct_rows_leave_nothing_witness :
  FilteredTable two_rows = Some []
  /\ exists w',
       draw_bar_plot (session two_rows [LinePlot])
       = (w', Raise (TypeError "no numeric data to plot"))
       /\ files w' = files (session two_rows [LinePlot]).
Proof.
  apply (two_distinct_rows_leave_nothing
           {| date := {| year := 2016; calendar_month := May; day := 9 |};
              value := 1201 |}
           {| date := {| year := 2016; calendar_month := May; day := 10 |};
              value := 2329 |} [LinePlot]).
  - unfold small_count; cbn; lia.
  - unfold small_count; cbn; lia.
  - cbn. lia.
Defined.

(** X6. The filter does not depend on the order of the rows in the file:
    reordering the table leaves both thresholds as they are and reorders the
    filtered table accordingly. *)
Theorem filter_independent_of_row_order (csv csv' : list Row) :
  csv ≡ₚ csv' ->
  quantile (25 # 1000) (map value csv) = quantile (25 # 1000) (map value csv')
  /\ quantile (975 # 1000) (map value csv) = quantile (975 # 1000) (map value csv')
  /\ exists rows rows',
       FilteredTable csv = Some rows /\ FilteredTable csv' = Some rows'
       /\ rows ≡ₚ rows'.
Proof.
  intros Hp.
  assert (Hv : map value csv ≡ₚ map value csv') by by apply Permutation_map.
  split; [by apply quantile_perm|]. split; [by apply quantile_perm|].
  exists (kept csv), (kept csv'). rewrite !FilteredTable_kept.
  split; [done|]. split; [done|]. by apply kept_perm.
Qed.

Lemma filter_independent_of_row_order_witness :
  exists rows rows',
    FilteredTable scenario = Some rows /\ FilteredTable (rev scenario) = Some rows'
    /\ rows ≡ₚ rows'.
Proof.
  apply (filter_independent_of_row_order scenario (rev scenario)).
  apply Permutation_rev.
Defined.

(** ** The files of a session *)

Lemma output_file_inj (r r' : Renderer) : output_file r = output_file r' -> r = r'.
Proof. by destruct r, r'. Qed.

Lemma call_files (r : Renderer) h fs l rows :
  h !! l = Some (ODataFrame (read_csv rows)) ->
  exists t,
    (call r {| heap := h; files := fs; df := Some l |}).1
    = {| heap := h ++ t;
         files := if draws r rows then <[output_file r := figure_of r rows]> fs
                  else fs;
         df := Some l |}.
Proof.
  intros H. destruct r; cbn [call output_file figure_of].
  - rewrite (draw_line_plot_run _ _ _ _ H). by eexists.
  - rewrite (draw_bar_plot_run _ _ _ _ H).
    destruct (grid_columns (bar_grid rows)) eqn:Hc.
    + apply bar_grid_columns_nil in Hc as ->. cbn. rewrite <- app_assoc. by eexists.
    + destruct rows; [done|]. cbn. rewrite <- app_assoc. by eexists.
  - rewrite (draw_box_plot_run _ _ _ _ H).
    destruct rows; cbn; rewrite <- app_assoc; by eexists.
Qed.

Lemma run_calls_files (rs : list Renderer) (r : Renderer) h fs l rows :
  h !! l = Some (ODataFrame (read_csv rows)) ->
  files (run_calls rs {| heap := h; files := fs; df := Some l |}) !! output_file r
  = if bool_decide (r ∈ rs) && draws r rows then Some (figure_of r rows)
    else fs !! output_file r.
Proof.
  revert h fs. induction rs as [|r0 rs IH]; intros h fs H; cbn [run_calls].
  - rewrite bool_decide_eq_false_2; [done|]. apply not_elem_of_nil.
  - destruct (call_files r0 h fs l rows H) as (t & ->).
    rewrite (IH _ _ (lookup_app_l_Some _ _ _ _ H)).
    destruct (decide (r ∈ rs)) as [Hin|Hin].
    + rewrite !bool_decide_eq_true_2; [|by right|done].
      destruct (draws r rows) eqn:Hd; [done|]. cbn.
      destruct (draws r0 rows) eqn:Hd0; [|done].
      rewrite lookup_insert_ne; [done|].
      intros E. apply output_file_inj in E as ->. congruence.
    + rewrite (bool_decide_eq_false_2 (r ∈ rs)) by done.
      cbn [andb]. destruct (decide (r = r0)) as [->|Hne].
      * rewrite bool_decide_eq_true_2 by left. cbn [andb].
        destruct (draws r0 rows); [apply lookup_insert_eq|done].
      * rewrite bool_decide_eq_false_2.
        2:{ intros E. apply elem_of_cons in E as [?|?]; done. }
        cbn [andb]. destruct (draws r0 rows); [|done].
        rewrite lookup_insert_ne; [done|].
        intros E. by apply output_file_inj in E.
Qed.

(** X7. After any sequence of renderer calls the output file of a renderer
    exists exactly when that renderer was called and got as far as saving
    (the line and box renderers always, the bar renderer on a filtered table
    with a row), and it then holds the figure the renderer draws from the
    filtered table, whatever was called before, after or how often; on a
    filtered table without rows the box renderer's figure has titles and
    labels and nothing drawn. *)
Theorem session_files (csv : list Row) (rs : list Renderer) (r : Renderer) :
  files (session csv rs) !! output_file r
  = if bool_decide (r ∈ rs) && draws r (kept csv)
    then Some (figure_of r (kept csv))
    else None.
Proof.
  unfold session. rewrite loaded_eq.
  rewrite (run_calls_files rs r _ _ 1%nat (kept csv)) by done.
  by destruct (bool_decide (r ∈ rs) && draws r (kept csv)).
Qed.

(** X8. The line plot is one red line of width 1 on a 15 by 5 figure, drawn
    over the rows of the filtered table in their file order: dates on the x
    axis, values on the y axis; it has no legend. *)
Theorem line_plot_draws_filtered_rows (csv : list Row) (rs : list Renderer) :
  exists f a rows,
    renders draw_line_plot (session csv rs) "line_plot.png" f
    /\ FilteredTable csv = Some rows
    /\ figsize f = (15, 5)
    /\ axes f = [a]
    /\ artists a = [Line2D (DatetimeIndex "date" (map date rows))
                           (IntCol (map value rows)) "red" 1]
    /\ legend a = None.
Proof.
  eexists _, _, _. split; [apply renders_line|].
  split; [apply FilteredTable_kept|]. by cbn.
Qed.

(** ** Groups as a partition of the rows *)

Lemma filter_key_other {A K : Type} `{EqDecision K} (f : A -> K) (x : A)
    (l : list A) (ks : list K) :
  f x ∉ ks ->
  map (fun k => filter (fun r => f r = k) (x :: l)) ks
  = map (fun k => filter (fun r => f r = k) l) ks.
Proof.
  induction ks as [|k ks IH]; [done|]. rewrite not_elem_of_cons. intros [Hne Hin].
  cbn [map]. rewrite filter_cons_False by done. by rewrite IH.
Qed.

(** Filed under keys that are pairwise distinct and cover every row, the
    rows are each in exactly one group. *)
Lemma groups_partition {A K : Type} `{EqDecision K} (f : A -> K)
    (ks : list K) (l : list A) :
  NoDup ks -> Forall (fun r => f r ∈ ks) l ->
  concat (map (fun k => filter (fun r => f r = k) l) ks) ≡ₚ l.
Proof.
  intros Hnd. induction 1 as [|x l Hx _ IH].
  - clear Hnd. induction ks as [|k ks IHk]; [done|]. exact IHk.
  - apply list_elem_of_split in Hx as (k1 & k2 & Hks).
    rewrite Hks in Hnd, IH |- *. apply NoDup_app in Hnd as (Hn1 & Hn12 & Hn2).
    apply NoDup_cons in Hn2 as [Hn2 _].
    assert (Hx1 : f x ∉ k1).
    { intros Hin. apply (Hn12 _ Hin). left. }
    rewrite !map_app, !concat_app in IH |- *. cbn [map concat] in IH |- *.
    rewrite (filter_key_other f x l k1 Hx1), (filter_key_other f x l k2 Hn2).
    rewrite filter_cons_True by done.
    cbn [app]. rewrite <- Permutation_middle. by constructor.
Qed.

Lemma concat_map_map {A B K : Type} (g : A -> B) (h : K -> list A) (ks : list K) :
  concat (map (fun k => map g (h k)) ks) = map g (concat (map h ks)).
Proof.
  induction ks as [|k ks IH]; [done|]. cbn. by rewrite IH, map_app.
Qed.

Lemma group_values_year (y : Z) (rows : list Row) :
  group_values (LInt y) (map LInt (map year (map date rows))) (map value rows)
  = map value (filter (fun r => year (date r) = y) rows).
Proof.
  unfold group_values. induction rows as [|r rows IH]; [done|].
  cbn [map zip zip_with List.filter fst]. rewrite filter_cons.
  destruct (decide (year (date r) = y)) as [->|Hne].
  - rewrite bool_decide_eq_true_2 by done. cbn. by rewrite IH.
  - rewrite bool_decide_eq_false_2 by congruence. exact IH.
Qed.

Lemma month_abbr_in_order (r : Row) : strftime_b (date r) ∈ month_order.
Proof.
  unfold strftime_b, month_order.
  destruct (calendar_month (date r)); cbn;
    repeat first [by left | right].
Qed.

Lemma month_order_NoDup : NoDup month_order.
Proof. apply (bool_decide_unpack _). by vm_compute. Qed.

(** X9. The year-wise box plot has one group per distinct year of the
    filtered table, in increasing order of the year, ticks included; the
    group of a year holds the values of the rows of that year, so that every
    row of the filtered table is in exactly one box. *)
Theorem year_boxes_partition_rows (csv : list Row) (rs : list Renderer) :
  kept csv <> [] ->
  exists f a1 a2 years groups,
    renders draw_box_plot (session csv rs) "box_plot.png" f
    /\ axes f = [a1; a2]
    /\ artists a1 = [BoxPlot groups]
    /\ xticklabels a1 = map LInt years
    /\ StronglySorted Z.lt years
    /\ (forall y, y ∈ years <-> y ∈ map year (map date (kept csv)))
    /\ groups
       = map (fun y => (LInt y,
                        map value (filter (fun r => year (date r) = y) (kept csv))))
             years
    /\ concat (map snd groups) ≡ₚ map value (kept csv).
Proof.
  intros Hne.
  exists (box_figure (kept csv)), (year_axes (kept csv)), (month_axes (kept csv)),
         (sorted_unique (map year (map date (kept csv)))).
  eexists. split; [by apply renders_box|].
  split; [reflexivity|]. split; [reflexivity|]. split; [reflexivity|].
  split; [apply sorted_unique_sorted|].
  split; [intros y; apply elem_of_sorted_unique|].
  assert (Hg : box_groups (map LInt (sorted_unique (map year (map date (kept csv)))))
                 (map LInt (map year (map date (kept csv)))) (map value (kept csv))
               = map (fun y => (LInt y,
                        map value (filter (fun r => year (date r) = y) (kept csv))))
                     (sorted_unique (map year (map date (kept csv))))).
  { unfold box_groups. rewrite map_map. apply map_ext. intros y.
    by rewrite group_values_year. }
  split; [exact Hg|]. rewrite Hg, map_map. cbn [snd].
  rewrite concat_map_map. apply Permutation_map.
  apply (groups_partition (fun r => year (date r))).
  - apply sorted_lt_NoDup, sorted_unique_sorted.
  - apply Forall_forall. intros r Hr. apply elem_of_sorted_unique.
    apply elem_of_map_iff. exists (date r). split; [done|].
    apply elem_of_map_iff. by exists r.
Qed.

Lemma year_boxes_partition_rows_witness :
  exists f a1 a2 years groups,
    renders draw_box_plot (session two_months []) "box_plot.png" f
    /\ axes f = [a1; a2]
    /\ artists a1 = [BoxPlot groups]
    /\ xticklabels a1 = map LInt years
    /\ StronglySorted Z.lt years
    /\ (forall y, y ∈ years <-> y ∈ map year (map date (kept two_months)))
    /\ groups
       = map (fun y => (LInt y,
                        map value
                          (filter (fun r => year (date r) = y) (kept two_months))))
             years
    /\ concat (map snd groups) ≡ₚ map value (kept two_months).
Proof.
  apply (year_boxes_partition_rows two_months []).
  vm_compute. discriminate.
Defined.

(** X10. The twelve groups of the month-wise box plot lose no row: every
    row of the filtered table is in exactly one of them. *)
Theorem month_boxes_partition_rows (csv : list Row) (rs : list Renderer) :
  kept csv <> [] ->
  exists f a1 a2 groups,
    renders draw_box_plot (session csv rs) "box_plot.png" f
    /\ axes f = [a1; a2]
    /\ artists a2 = [BoxPlot groups]
    /\ length groups = 12%nat
    /\ concat (map snd groups) ≡ₚ map value (kept csv).
Proof.
  intros Hne.
  exists (box_figure (kept csv)), (year_axes (kept csv)), (month_axes (kept csv)).
  eexists. split; [by apply renders_box|].
  split; [reflexivity|]. split; [reflexivity|]. split; [reflexivity|].
  assert (Hg : box_groups (map LStr month_order)
                 (map LStr (map strftime_b (map date (kept csv))))
                 (map value (kept csv))
               = map (fun name =>
                        (LStr name,
                         map value (filter (fun r => strftime_b (date r) = name)
                                           (kept csv))))
                     month_order).
  { unfold box_groups. rewrite map_map. apply map_ext. intros name.
    by rewrite group_values_month. }
  rewrite Hg, map_map. cbn [snd].
  rewrite concat_map_map. apply Permutation_map.
  apply (groups_partition (fun r => strftime_b (date r))).
  - apply month_order_NoDup.
  - apply Forall_forall. intros r _. apply month_abbr_in_order.
Qed.

Lemma month_boxes_partition_rows_witness :
  exists f a1 a2 groups,
    renders draw_box_plot (session two_months []) "box_plot.png" f
    /\ axes f = [a1; a2]
    /\ artists a2 = [BoxPlot groups]
    /\ length groups = 12%nat
    /\ concat (map snd groups) ≡ₚ map value (kept two_months).
Proof.
  apply (month_boxes_partition_rows two_months []).
  vm_compute. discriminate.
Defined.

(** ** The bars *)

Lemma grid_column_unstack (names : string * string) (s : list (Key * Q))
    (j : nat) (m : Z) :
  grid_columns (unstack names s) !! j = Some m ->
  grid_column (unstack names s) j
  = map (fun y => series_get (y, m) s) (grid_index (unstack names s)).
Proof.
  intros Hj. unfold grid_column. cbn [grid_data grid_index grid_columns unstack] in *.
  rewrite map_map. apply map_ext. intros y.
  by rewrite (list_lookup_fmap _ _ j), Hj.
Qed.

Lemma bar_containers_eq (rows : list Row) :
  bar_containers (bar_grid rows)
  = map (fun m => BarContainer (pretty m)
                    (map (fun y => bar_height rows y m) (grid_index (bar_grid rows))))
        (grid_columns (bar_grid rows)).
Proof.
  unfold bar_containers.
  rewrite (imap_ext _ (fun _ m => BarContainer (pretty m)
             (map (fun y => bar_height rows y m) (grid_index (bar_grid rows))))).
  - exact (imap_const _ _).
  - intros j m Hj. f_equal. unfold bar_grid in *.
    rewrite (grid_column_unstack _ _ j m Hj), map_map. apply map_ext. intros y.
    fold (bar_series rows). rewrite bar_series_get. unfold bar_height.
    by destruct (group rows y m).
Qed.

Lemma bar_grid_index_eq (rows : list Row) :
  grid_index (bar_grid rows) = sorted_unique (map year (map date rows)).
Proof.
  apply sorted_lt_ext.
  - apply sorted_unique_sorted.
  - apply sorted_unique_sorted.
  - intros y. by rewrite bar_grid_index_elem, elem_of_sorted_unique.
Qed.

(** X11. The bar plot, on a 10 by 8 figure, has one bar container per month
    that occurs in the filtered table, in increasing month order and labelled
    by the month number, and each container has one bar per distinct year,
    in increasing year order (the years label the ticks); the bar of a year
    and month is as high as the mean of their rows, and has height 0 where
    the year has no row in that month. *)
Theorem bars_by_month_and_year (csv : list Row) (rs : list Renderer) :
  kept csv <> [] ->
  exists f a,
    renders draw_bar_plot (session csv rs) "bar_plot.png" f
    /\ figsize f = (10, 8)
    /\ axes f = [a]
    /\ xticklabels a = map LInt (sorted_unique (map year (map date (kept csv))))
    /\ artists a
       = map (fun m =>
                BarContainer (pretty m)
                  (map (fun y => bar_height (kept csv) y m)
                       (sorted_unique (map year (map date (kept csv))))))
             (filter (fun m => m ∈ map month (map date (kept csv))) (seqZ 1 12)).
Proof.
  intros Hne. eexists _, _. split; [by apply renders_bar|].
  split; [reflexivity|]. split; [reflexivity|].
  rewrite <- bar_grid_index_eq, <- bar_grid_columns_eq. split; [reflexivity|].
  rewrite <- bar_containers_eq. reflexivity.
Qed.

Lemma bars_by_month_and_year_witness :
  exists f a,
    renders draw_bar_plot (session two_months []) "bar_plot.png" f
    /\ figsize f = (10, 8)
    /\ axes f = [a]
    /\ xticklabels a = map LInt (sorted_unique (map year (map date (kept two_months))))
    /\ artists a
       = map (fun m =>
                BarContainer (pretty m)
                  (map (fun y => bar_height (kept two_months) y m)
                       (sorted_unique (map year (map date (kept two_months))))))
             (filter (fun m => m ∈ map month (map date (kept two_months)))
                     (seqZ 1 12)).
Proof.
  apply (bars_by_month_and_year two_months []).
  vm_compute. discriminate.
Defined.

Lemma bar_legend_in_general_witness :
  exists f a lg,
    renders draw_bar_plot (session two_months [BoxPlots]) "bar_plot.png" f
    /\ axes f = [a]
    /\ legend a = Some lg
    /\ map snd (legend_entries lg)
       = take (length (filter (fun m => m ∈ map month (map date (kept two_months)))
                              (seqZ 1 12)))
              months.
Proof.
  apply (bar_legend_in_general two_months [BoxPlots]).
  vm_compute. discriminate.
Defined.

(** X13. When every month occurs in the filtered table, the legend of the
    bar plot is right: it has twelve entries, and the name of each month is
    attached to the bars of that month. *)
Theorem bar_legend_with_all_months (csv : list Row) (rs : list Renderer) :
  seqZ 1 12 ⊆ map month (map date (kept csv)) ->
  exists f a lg,
    renders draw_bar_plot (session csv rs) "bar_plot.png" f
    /\ axes f = [a]
    /\ legend a = Some lg
    /\ map (fun e => (container_label e.1, e.2)) (legend_entries lg)
       = [(Some "1", "January"); (Some "2", "February"); (Some "3", "March");
          (Some "4", "April"); (Some "5", "May"); (Some "6", "June");
          (Some "7", "July"); (Some "8", "August"); (Some "9", "September");
          (Some "10", "October"); (Some "11", "November"); (Some "12", "December")].
Proof.
  intros Hall.
  assert (Hne : kept csv <> []).
  { intros E. rewrite E in Hall. assert (H1 : 1 ∈ seqZ 1 12) by (vm_compute; left).
    apply Hall in H1. by apply elem_of_nil in H1. }
  assert (Hcols : grid_columns (bar_grid (kept csv)) = seqZ 1 12).
  { rewrite bar_grid_columns_eq. generalize (seqZ 1 12) Hall. intros l Hl.
    induction l as [|x l IH]; [done|].
    rewrite filter_cons_True by (apply Hl; left).
    f_equal. apply IH. intros z Hz. apply Hl. by right. }
  eexists _, _, _. split; [by apply renders_bar|].
  split; [reflexivity|]. split; [apply bar_axes_legend|].
  cbn [legend_entries]. rewrite bar_containers_eq, Hcols.
  reflexivity.
Qed.

Lemma bar_legend_with_all_months_witness :
  exists f a lg,
    renders draw_bar_plot (session full_year []) "bar_plot.png" f
    /\ axes f = [a]
    /\ legend a = Some lg
    /\ map (fun e => (container_label e.1, e.2)) (legend_entries lg)
       = [(Some "1", "January"); (Some "2", "February"); (Some "3", "March");
          (Some "4", "April"); (Some "5", "May"); (Some "6", "June");
          (Some "7", "July"); (Some "8", "August"); (Some "9", "September");
          (Some "10", "October"); (Some "11", "November"); (Some "12", "December")].
Proof.
  apply (bar_legend_with_all_months full_year []).
  vm_compute. intros m Hm. exact Hm.
Defined.

(** ** Means of values inside the band *)

Lemma total_between (vs : list Z) (lo hi : Q) :
  Forall (fun v => lo <= inject_Z v /\ inject_Z v <= hi)%Q vs ->
  (lo * inject_Z (Z.of_nat (length vs)) <= inject_Z (total vs)
   /\ inject_Z (total vs) <= hi * inject_Z (Z.of_nat (length vs)))%Q.
Proof.
  induction 1 as [|v vs [Hv1 Hv2] _ [IH1 IH2]].
  - change (inject_Z (Z.of_nat (length (@nil Z)))) with 0%Q.
    change (inject_Z (total [])) with 0%Q. split; lra.
  - cbn [total foldr length]. fold (total vs).
    rewrite Nat2Z.inj_succ, <- Z.add_1_r, !inject_Z_plus.
    change (inject_Z 1) with 1%Q. split; lra.
Qed.

Lemma mean_between (vs : list Z) (lo hi : Q) :
  vs <> [] ->
  Forall (fun v => lo <= inject_Z v /\ inject_Z v <= hi)%Q vs ->
  (lo <= mean vs /\ mean vs <= hi)%Q.
Proof.
  intros Hne Hall. destruct (total_between vs lo hi Hall) as [H1 H2].
  assert (Hn : (0 < inject_Z (Z.of_nat (length vs)))%Q).
  { change 0%Q with (inject_Z 0). rewrite <- Zlt_Qlt.
    destruct vs; [done|cbn; lia]. }
  unfold mean. split.
  - by apply Qle_shift_div_l.
  - by apply Qle_shift_div_r.
Qed.

Lemma group_values_kept (csv : list Row) (y m : Z) :
  Forall (fun v => in_band (quantile (25 # 1000) (map value csv))
                           (quantile (975 # 1000) (map value csv)) v = true)
         (group (kept csv) y m).
Proof.
  unfold group. apply Forall_forall. intros v Hv.
  apply elem_of_map_iff in Hv as (r & -> & Hr).
  apply elem_of_bool_filter in Hr as [Hr _].
  unfold kept in Hr. by apply elem_of_bool_filter in Hr as [_ Hb].
Qed.

(** X14. Every mean in the grid of the bar plot lies inside the band of the
    filter: between the 2.5% and the 97.5% quantile of the loaded table. *)
Theorem monthly_means_within_band (csv : list Row) (rs : list Renderer) (y m : Z) :
  (y, m) ∈ map row_key (kept csv) ->
  exists w' g q lo hi,
    monthly_average_grid (session csv rs) = (w', Ret g)
    /\ grid_cell g y m = Some (Some q)
    /\ quantile (25 # 1000) (map value csv) = Some lo
    /\ quantile (975 # 1000) (map value csv) = Some hi
    /\ (lo <= q)%Q /\ (q <= hi)%Q.
Proof.
  intros Hk.
  destruct (monthly_average_grid_session csv rs) as (w' & Hrun).
  assert (Hg : group (kept csv) y m <> []).
  { intros E. by apply group_nil in E. }
  pose proof (group_values_kept csv y m) as Hall.
  destruct (group (kept csv) y m) as [|v vs] eqn:Eg; [done|].
  assert (Hv := Forall_inv Hall).
  apply in_band_within in Hv as (lo & hi & Hlo & Hhi & _).
  exists w', (bar_grid (kept csv)), (mean (v :: vs)), lo, hi.
  split; [exact Hrun|]. split.
  - rewrite bar_grid_cell, Eg.
    rewrite bool_decide_eq_true_2; [done|].
    apply elem_of_map_iff in Hk as (r & Hr & Hin). inversion Hr; subst.
    split; apply elem_of_map_iff; exists (date r); (split; [done|]);
      apply elem_of_map_iff; by exists r.
  - split; [done|]. split; [done|].
    apply mean_between; [done|].
    eapply Forall_impl; [exact Hall|]. intros x Hx. cbn in Hx.
    rewrite Hlo, Hhi in Hx. apply in_band_within in Hx as (l & h & El & Eh & H1 & H2).
    by inversion El; inversion Eh; subst.
Qed.

Lemma monthly_means_within_band_witness :
  exists w' g q lo hi,
    monthly_average_grid (session scenario []) = (w', Ret g)
    /\ grid_cell g 2016 5 = Some (Some q)
    /\ quantile (25 # 1000) (map value scenario) = Some lo
    /\ quantile (975 # 1000) (map value scenario) = Some hi
    /\ (lo <= q)%Q /\ (q <= hi)%Q.
Proof.
  apply (monthly_means_within_band scenario [] 2016 5).
  vm_compute. left.
Defined.

(** ** Tables that are never filtered down to nothing *)

Lemma sorted_nth_le (s : list Z) (i j : nat) (d d' : Z) :
  StronglySorted Z.le s -> (i <= j)%nat -> (j < length s)%nat ->
  nth i s d <= nth j s d'.
Proof.
  intros Hs. revert i j. induction Hs as [|x s Hs IH Hx]; intros i j Hij Hj.
  - cbn in Hj. lia.
  - destruct i as [|i], j as [|j]; cbn [nth]; cbn in Hj.
    + lia.
    + rewrite Forall_forall in Hx. apply Hx, nth_elem_of. lia.
    + lia.
    + apply IH; lia.
Qed.

(** Between the two positions the filter reads, a sorted series of at least
    three values has a value that both thresholds admit. *)
Lemma interpolate_admits_one (s : list Z) :
  StronglySorted Z.le s -> (3 <= length s)%nat ->
  exists x, x ∈ s
    /\ (interpolate s ((25 # 1000) * inject_Z (Z.of_nat (length s) - 1))
        <= inject_Z x)%Q
    /\ (inject_Z x
        <= interpolate s ((975 # 1000) * inject_Z (Z.of_nat (length s) - 1)))%Q.
Proof.
  intros Hs Hlen.
  set (k := Z.of_nat (length s) - 1).
  assert (Hk : (2 <= inject_Z k)%Q).
  { change 2%Q with (inject_Z 2). rewrite <- Zle_Qle. unfold k. lia. }
  set (p1 := ((25 # 1000) * inject_Z k)%Q).
  set (p2 := ((975 # 1000) * inject_Z k)%Q).
  assert (Hp1 : (0 <= p1)%Q /\ (p1 <= inject_Z k)%Q) by (unfold p1; split; lra).
  assert (Hp2 : (0 <= p2)%Q /\ (p2 <= inject_Z k)%Q) by (unfold p2; split; lra).
  destruct (position_parts p1 k (proj1 Hp1) (proj2 Hp1)) as ([Ha0 Ha1] & Hf1 & Hf1').
  destruct (position_parts p2 k (proj1 Hp2) (proj2 Hp2)) as ([Hb0 Hb1] & Hf2 & Hf2').
  assert (Hlt : Qfloor p1 < Qfloor p2).
  { rewrite Zlt_Qlt. unfold p1, p2 in *. lra. }
  unfold interpolate. fold p1 p2.
  set (i1 := Z.to_nat (Qfloor p1)) in *.
  set (i2 := Z.to_nat (Qfloor p2)) in *.
  assert (Hi : (S i1 <= i2)%nat /\ (i2 < length s)%nat) by (unfold k in *; lia).
  set (a1 := nth i1 s 0). set (b1 := nth (S i1) s a1).
  set (a2 := nth i2 s 0). set (b2 := nth (S i2) s a2).
  assert (Hab1 : a1 <= b1) by (apply sorted_nth_le; [done|lia|lia]).
  assert (Hx : b1 <= a2) by (apply sorted_nth_le; [done|lia|lia]).
  assert (Hab2 : a2 <= b2).
  { unfold b2. destruct (decide (S i2 < length s)%nat).
    - apply sorted_nth_le; [done|lia|lia].
    - rewrite nth_overflow by lia. lia. }
  rewrite Zle_Qle in Hab1, Hx, Hab2.
  exists b1. split; [apply nth_elem_of; lia|]. split.
  - assert (0 <= (inject_Z b1 - inject_Z a1) * (1 - (p1 - inject_Z (Qfloor p1))))%Q
      by (apply Qmult_le_0_compat; lra).
    lra.
  - assert (0 <= (inject_Z b2 - inject_Z a2) * (p2 - inject_Z (Qfloor p2)))%Q
      by (apply Qmult_le_0_compat; lra).
    lra.
Qed.

Lemma kept_three_rows (csv : list Row) : (3 <= length csv)%nat -> kept csv <> [].
Proof.
  intros Hlen.
  assert (Hne : map value csv <> []) by (destruct csv; [cbn in Hlen; lia|done]).
  assert (Hl : length (merge_sort Z.le (map value csv)) = length (map value csv))
    by apply (Permutation_length (merge_sort_Permutation Z.le _)).
  destruct (interpolate_admits_one (merge_sort Z.le (map value csv)))
    as (x & Hx & Hlo & Hhi).
  { apply StronglySorted_merge_sort; apply _. }
  { rewrite Hl, length_map. lia. }
  rewrite Hl in Hlo, Hhi.
  rewrite merge_sort_Permutation in Hx.
  apply elem_of_map_iff in Hx as (r & -> & Hr).
  assert (Hin : r ∈ kept csv).
  { unfold kept. apply elem_of_bool_filter. split; [done|].
    rewrite !quantile_interpolate by done. cbn [in_band].
    by rewrite andb_true_iff, !Qle_bool_iff. }
  intros E. rewrite E in Hin. by apply elem_of_nil in Hin.
Qed.

(** X15. A table of at least three rows is never filtered down to nothing:
    some row lies inside the band, so that in every session all three
    renderers have something to draw and return. *)
Theorem three_rows_always_render (csv : list Row) (rs : list Renderer) (r : Renderer) :
  (3 <= length csv)%nat ->
  (exists rows, FilteredTable csv = Some rows /\ rows <> [])
  /\ exists f, renders (call r) (session csv rs) (output_file r) f.
Proof.
  intros Hlen. pose proof (kept_three_rows csv Hlen) as Hne. split.
  - exists (kept csv). split; [apply FilteredTable_kept|done].
  - destruct r; cbn [call output_file]; eexists.
    + apply renders_line.
    + by apply renders_bar.
    + by apply renders_box.
Qed.

Lemma three_rows_always_render_witness :
  (exists rows, FilteredTable scenario = Some rows /\ rows <> [])
  /\ exists f, renders (call BarPlot) (session scenario [BoxPlots])
                       (output_file BarPlot) f.
Proof.
  apply (three_rows_always_render scenario [BoxPlots] BarPlot).
  cbn. lia.
Defined.
